(** * home_page.py: the data reshaping behind the dashboard charts

    A shallow embedding of [src/home_page.py].  The page builders of the
    source reshape small pandas tables (group, count, filter by a boolean
    mask, take the first five titles) and hand the result to plotly and
    streamlit.  The embedding keeps that shape:

    - Python strings are [string]s (their UTF-8 bytes) and the built-ins
      the source calls on them live in [Module Py];
    - a pandas scalar is a [cell], a table is a [DataFrame] (column labels
      plus one finite map per row), and the pandas calls of the source are
      functions returning [option], [None] standing for the exception the
      library raises;
    - a plotly figure is a record of the arguments the source passes;
    - streamlit's page and session state are threaded through a small
      state monad [St], whose outcome records a page switch or an
      uncaught exception. *)

From Stdlib Require Import ZArith Ascii.
From stdpp Require Import base option list strings gmap pretty sorting.

(** ** Python built-ins on strings *)

Module Py.

(** [a or b] on strings: [a] unless it is empty. *)
Definition or_ (a b : string) : string :=
  if decide (a = "") then b else a.

(** [sep.join(l)]. *)
Definition join (sep : string) (l : list string) : string :=
  String.concat sep l.

(** [s[-1]]; [None] is the IndexError on the empty string. *)
Fixpoint last (s : string) : option ascii :=
  match s with
  | EmptyString => None
  | String c s' =>
      match s' with
      | EmptyString => Some c
      | String _ _ => last s'
      end
  end.

(** [s[:-1]]. *)
Fixpoint init (s : string) : string :=
  match s with
  | EmptyString => EmptyString
  | String c s' =>
      match s' with
      | EmptyString => EmptyString
      | String _ _ => String c (init s')
      end
  end.

(** [sub in s]. *)
Fixpoint contains (sub s : string) : bool :=
  String.prefix sub s
  || match s with
     | EmptyString => false
     | String _ s' => contains sub s'
     end.

Definition is_upper (c : ascii) : bool :=
  let n := nat_of_ascii c in (65 <=? n)%nat && (n <=? 90)%nat.

Definition is_lower (c : ascii) : bool :=
  let n := nat_of_ascii c in (97 <=? n)%nat && (n <=? 122)%nat.

Definition upper (c : ascii) : ascii :=
  if is_lower c then ascii_of_nat (nat_of_ascii c - 32) else c.

Definition lower (c : ascii) : ascii :=
  if is_upper c then ascii_of_nat (nat_of_ascii c + 32) else c.

(** Whether every byte of [s] is below 128, [s.isascii()]. *)
Fixpoint isascii (s : string) : bool :=
  match s with
  | EmptyString => true
  | String c s' => (nat_of_ascii c <? 128)%nat && isascii s'
  end.

(** [s.title()] on ASCII letters: a letter that follows a letter is
    lowered, any other letter is raised; other bytes are kept.  Python
    cases the letters of every script: the two agree on the strings
    that satisfy [isascii], and the statements that spell a tooltip out
    are about such column names. *)
Fixpoint title_from (prev_cased : bool) (s : string) : string :=
  match s with
  | EmptyString => EmptyString
  | String c s' =>
      String (if prev_cased then lower c else upper c)
             (title_from (is_upper c || is_lower c) s')
  end.

Definition title (s : string) : string := title_from false s.

(** [range(0, n, step)] for a positive [step]. *)
Definition range0 (n step : nat) : list nat :=
  (λ k, k * step)%nat <$> seq 0 ((n + step - 1) / step)%nat.

End Py.

(** ** Numbers held by a table

    The numeric columns of the films table are integers (year, duration,
    identifiers) and floats (ratings).  The builders only compare, order
    and print them, so the scalar type is an interface. *)

Class Number (num : Type) := {
  num_eqb : num → num → bool;   (* [==] *)
  num_ltb : num → num → bool;   (* [<] *)
  num_str : num → string;       (* [str(x)] *)
  num_of_Z : Z → num;           (* an integer literal or a count *)
}.

(** An integer column.  pandas keeps a column as integers only while no
    value of it is missing; with a missing value the column holds floats
    and a key prints as [4.0].  [num_str] is the text of an integer, so
    the statements that spell a key out are about columns without
    [NaN]. *)
#[export] Instance Z_Number : Number Z := {
  num_eqb := Z.eqb;
  num_ltb := Z.ltb;
  num_str := pretty;
  num_of_Z := id;
}.

(** ** pandas *)

Section Pandas.
Context {num : Type} `{!Number num}.

(** A scalar of a table; [NaN] is the missing value. *)
Inductive cell :=
| NaN
| Num (x : num)
| Str (s : string).

Definition isna (c : cell) : bool :=
  match c with NaN => true | _ => false end.

(** Elementwise [==]: a missing value equals nothing. *)
Definition cell_eqb (a b : cell) : bool :=
  match a, b with
  | Num x, Num y => num_eqb x y
  | Str s, Str t => String.eqb s t
  | _, _ => false
  end.

(** Elementwise [!=]. *)
Definition cell_neb (a b : cell) : bool := negb (cell_eqb a b).

(** The order used to sort group keys and rows; numbers come before
    strings (pandas sorts one dtype at a time). *)
Definition cell_ltb (a b : cell) : bool :=
  match a, b with
  | Num x, Num y => num_ltb x y
  | Str s, Str t => String.ltb s t
  | Num _, Str _ => true
  | _, _ => false
  end.

(** [str(c)]. *)
Definition cell_str (c : cell) : string :=
  match c with
  | NaN => "nan"
  | Num x => num_str x
  | Str s => s
  end.

(** What [str.join] accepts: a string, anything else is a TypeError. *)
Definition cell_as_str (c : cell) : option string :=
  match c with Str s => Some s | _ => None end.

(** A table: its column labels and its rows in order.  A row that has
    no entry for a label holds [NaN] there, as in a frame built from
    records. *)
Record DataFrame := {
  columns : list string;
  records : list (gmap string cell);
}.

Definition row_at (r : gmap string cell) (c : string) : cell :=
  default NaN (r !! c).

(** [df[c]]; [None] is the KeyError. *)
Definition col (df : DataFrame) (c : string) : option (list cell) :=
  if decide (c ∈ columns df)
  then Some ((λ r, row_at r c) <$> records df)
  else None.

(** [len(df)]. *)
Definition len (df : DataFrame) : nat := length (records df).

(** Selection by a boolean mask, [rows[mask]]. *)
Fixpoint boolean_index {A} (rows : list A) (mask : list bool) : list A :=
  match rows, mask with
  | r :: rows', b :: mask' =>
      if b then r :: boolean_index rows' mask'
      else boolean_index rows' mask'
  | _, _ => []
  end.

(** [df[mask]]. *)
Definition select (df : DataFrame) (mask : list bool) : DataFrame :=
  {| columns := columns df;
     records := boolean_index (records df) mask |}.

(** [df.iloc[i][label]]: IndexError past the last row, KeyError on a
    missing label. *)
Definition iloc (df : DataFrame) (i : nat) (label : string) : option cell :=
  r ← records df !! i;
  if decide (label ∈ columns df) then Some (row_at r label) else None.

(** [df.iloc[:n]] and [df.head(n)]. *)
Definition head (n : nat) (df : DataFrame) : DataFrame :=
  {| columns := columns df; records := take n (records df) |}.

(** [s.isin(values)]: membership, a missing value matching a missing
    value. *)
Definition cell_isin (values : list cell) (c : cell) : bool :=
  existsb (λ v, cell_eqb c v || (isna c && isna v)) values.

(** *** groupby(...).size()

    Groups are kept in key order; [eqb] and [ltb] compare keys. *)

Section GroupBy.
Context {K : Type} (eqb ltb : K → K → bool).

(** One more row with key [k]: its group grows by one, or a new
    group of size one is opened at its place in the key order. *)
Fixpoint count_key (k : K) (groups : list (K * nat)) : list (K * nat) :=
  match groups with
  | [] => [(k, 1%nat)]
  | (k', n) :: groups' =>
      if eqb k k' then (k', S n) :: groups'
      else if ltb k k' then (k, 1%nat) :: (k', n) :: groups'
      else (k', n) :: count_key k groups'
  end.

Definition group_sizes (keys : list K) : list (K * nat) :=
  foldl (λ groups k, count_key k groups) [] keys.
End GroupBy.

Definition notna (c : cell) : bool := negb (isna c).

(** [df.groupby(value).size().reset_index(name="number")]: one row per
    distinct value of the column, sorted, with the size of its group.
    Rows whose key is missing belong to no group ([dropna=True], the
    default).  [None]: the column is missing (KeyError) or is itself
    called "number" (ValueError of [reset_index]). *)
Definition groupby_size (df : DataFrame) (value : string)
  : option (list (cell * nat)) :=
  if decide (value = "number") then None
  else
    keys ← col df value;
    Some (group_sizes cell_eqb cell_ltb (filter (λ k, notna k = true) keys)).

(** The same with two key columns: a row belongs to a group only if
    neither key is missing; groups are in lexicographic key order. *)
Definition pair_eqb (k k' : cell * cell) : bool :=
  cell_eqb k.1 k'.1 && cell_eqb k.2 k'.2.

Definition pair_ltb (k k' : cell * cell) : bool :=
  cell_ltb k.1 k'.1 || (cell_eqb k.1 k'.1 && cell_ltb k.2 k'.2).

Definition pair_notna (k : cell * cell) : bool := notna k.1 && notna k.2.

Definition groupby2_size (df : DataFrame) (a b : string)
  : option (list ((cell * cell) * nat)) :=
  if decide (a = "number" ∨ b = "number") then None
  else
    ka ← col df a;
    kb ← col df b;
    Some (group_sizes pair_eqb pair_ltb
            (filter (λ k, pair_notna k = true) (zip ka kb))).

(** [df[label].tolist()]. *)
Definition tolist (df : DataFrame) (label : string) : option (list cell) :=
  col df label.

(** [df.sort_values(label, ascending=False)]: larger values first,
    missing values last.  pandas leaves the order of ties open; here
    ties keep their order. *)
Definition desc_before (label : string) (r r' : gmap string cell) : bool :=
  match row_at r label, row_at r' label with
  | NaN, _ => false
  | _, NaN => true
  | a, b => cell_ltb b a
  end.

Fixpoint insert_desc (label : string) (r : gmap string cell)
    (sorted : list (gmap string cell)) : list (gmap string cell) :=
  match sorted with
  | [] => [r]
  | r' :: sorted' =>
      if desc_before label r' r then r' :: insert_desc label r sorted'
      else r :: r' :: sorted'
  end.

Definition sort_values_desc (df : DataFrame) (label : string)
  : option DataFrame :=
  if decide (label ∈ columns df)
  then Some {| columns := columns df;
               records := foldr (insert_desc label) [] (records df) |}
  else None.

End Pandas.

Arguments cell num : clear implicits.
Arguments DataFrame num : clear implicits.

(** ** plotly figures

    A figure is the record of what the source hands to plotly. *)

Section Plotly.
Context {num : Type}.

(** [px.bar] with the layout updates of the histogram builders. *)
Record Bar := {
  bar_x : list (cell num);
  bar_y : list (cell num);
  bar_hover_name : list string;
  bar_title : string;
  bar_height : Z;
  bar_xaxis_title : string;
  bar_yaxis_title : string;
  bar_tickangle : option Z;
  (** [add_vline]: a dashed line at the mean of these values *)
  bar_vline : option (list (cell num));
  (** [update_xaxes(range=...)] *)
  bar_xaxis_range : option (Z * Z);
}.

(** [px.pie] over the two-row table of the progression builders; the
    hole is in hundredths. *)
Record Pie := {
  pie_names : list string;
  pie_values : list nat;
  pie_hover_name : list string;
  pie_hole : Z;
  pie_title : string;
}.

(** [px.scatter] of the rating pairs. *)
Record Scatter := {
  sc_x : list (cell num);
  sc_y : list (cell num);
  sc_size : list nat;
  sc_size_max : Z;
  sc_title : string;
  sc_height : Z;
  sc_xaxis_range : Z * Z;
  sc_yaxis_range : Z * Z;
}.
End Plotly.

Arguments Bar num : clear implicits.
Arguments Pie : clear implicits.
Arguments Scatter num : clear implicits.

(** ** The chart builders of home_page.py *)

Section Charts.
Context {num : Type} `{!Number num}.

(** [Series.str.contains(pat)] searches a regular expression; the
    matcher is the library's. *)
Context (re_search : string → string → bool).

Definition count_cell (n : nat) : cell num := Num (num_of_Z (Z.of_nat n)).

(** *** create_hist_numbers *)

(** [df_films[df_films[value] == val]["title"].head(5)], as the strings
    [join] receives. *)
Definition hist_numbers_examples (df_films : DataFrame num) (value : string)
    (val : cell num) : option (list string) :=
  vals ← col df_films value;
  titles ← col (select df_films ((λ c, cell_eqb c val) <$> vals)) "title";
  mapM cell_as_str (take 5 titles).

(** The lambda applied to every key of [df_count]. *)
Definition hist_numbers_hover (df_films : DataFrame num) (value : string)
    (df_count : list (cell num * nat)) (val : cell num) : option string :=
  number ← list.head (boolean_index (snd <$> df_count)
                        ((λ g, cell_eqb g.1 val) <$> df_count));
  examples ← hist_numbers_examples df_films value val;
  Some (Py.title value +:+ ": " +:+ cell_str val +:+ "<br>Films: "
        +:+ pretty number +:+ "<br>" +:+ Py.join "<br>" examples).

(** [df_count] has the columns [value] and "number"; the assignment
    [df_count["hover_text"] = ...] adds a third one, or overwrites the
    keys when [value] is itself "hover_text": [px.bar] then reads the
    tooltips as its x series. *)
Definition create_hist_numbers (df_films : DataFrame num) (value : string)
    (mean : bool) (hist_title : option string) : option (Bar num) :=
  df_count ← groupby_size df_films value;
  hover_text ← mapM (λ g, hist_numbers_hover df_films value df_count g.1)
                    df_count;
  vline ← (if mean then Some <$> col df_films value else Some None);
  Some {|
    bar_x := if decide (value = "hover_text") then Str <$> hover_text
             else fst <$> df_count;
    bar_y := (λ g, count_cell g.2) <$> df_count;
    bar_hover_name := hover_text;
    bar_title := Py.or_ (default "" hist_title) ("Films by " +:+ value);
    bar_height := if negb (Py.contains "rating" value) then 500 else 400;
    bar_xaxis_title := Py.title value;
    bar_yaxis_title := "Number of films";
    bar_tickangle := None;
    bar_vline := vline;
    bar_xaxis_range :=
      if Py.contains "rating" value then Some (0, 5)%Z else None;
  |}.

(** *** create_hist_categories *)

(** "Plural of the word categories"; [None] is the IndexError of
    [categories[-1]] on the empty word. *)
Definition plural (categories : string) : option string :=
  c ← Py.last categories;
  Some (if decide (c ≠ "y"%char)
        then categories +:+ "s"
        else Py.init categories +:+ "ies").

(** [s.str.contains(pat)] as a mask; a cell that is no string makes the
    selection fail. *)
Definition str_contains (pat : string) (s : list (cell num))
  : option (list bool) :=
  mapM (λ c, re_search pat <$> cell_as_str c) s.

(** The first five titles of the films whose [plural] column matches
    the row's [id_]. *)
Definition hist_categories_examples (df_films : DataFrame num)
    (plural : string) (key : cell num) : option (list string) :=
  memberships ← col df_films plural;
  mask ← str_contains (cell_str key) memberships;
  titles ← col (select df_films mask) "title";
  mapM cell_as_str (take 5 titles).

(** The lambda applied to every row of [df_categories]. *)
Definition hist_categories_hover (categories plural id_ : string)
    (df_categories df_films : DataFrame num) (row : gmap string (cell num))
  : option string :=
  if decide (categories ∈ columns df_categories
             ∧ "number" ∈ columns df_categories
             ∧ id_ ∈ columns df_categories)
  then
    examples ← hist_categories_examples df_films plural (row_at row id_);
    Some (Py.title categories +:+ ": " +:+ cell_str (row_at row categories)
          +:+ "<br>Films: " +:+ cell_str (row_at row "number") +:+ "<br>"
          +:+ Py.join "<br>" examples)
  else None.

(** [df["hover_text"] = texts]: the column is added in place. *)
Definition set_hover_text (df : DataFrame num) (texts : list string)
  : DataFrame num :=
  {| columns := if decide ("hover_text" ∈ columns df) then columns df
                else columns df ++ ["hover_text"];
     records := zip_with (λ r t, <["hover_text" := Str t]> r)
                         (records df) texts |}.

(** Returns the figure together with [df_categories] as the call
    leaves it. *)
Definition create_hist_categories (df_categories : DataFrame num)
    (categories : string) (df_films : DataFrame num) (id_ : string)
  : option (DataFrame num * Bar num) :=
  plural ← plural categories;
  hover_text ← mapM (hist_categories_hover categories plural id_
                       df_categories df_films) (records df_categories);
  let df_categories := set_hover_text df_categories hover_text in
  x ← col df_categories categories;
  y ← col df_categories "number";
  Some (df_categories,
        {| bar_x := x;
           bar_y := y;
           bar_hover_name := hover_text;
           bar_title := "Films by " +:+ categories;
           bar_height := 500;
           bar_xaxis_title := Py.title categories;
           bar_yaxis_title := "Number of films";
           bar_tickangle := Some 315%Z;
           bar_vline := None;
           bar_xaxis_range := None |}).

(** *** create_progression and create_progression_countries *)

(** "Text in tooltip": [f"Number: {len(l)}<br>" + "<br>".join(map(str,
    l[:5])) or "None"].  [+] binds tighter than [or]. *)
Definition tooltip (l : list (cell num)) : string :=
  Py.or_ ("Number: " +:+ pretty (length l) +:+ "<br>"
          +:+ Py.join "<br>" (cell_str <$> take 5 l))
         "None".

Definition df_pie (title : string) (watched not_watched : list (cell num))
  : Pie :=
  {| pie_names := ["Watched"; "Not watched"];
     pie_values := [length watched; length not_watched];
     pie_hover_name := [tooltip watched; tooltip not_watched];
     pie_hole := 60;
     pie_title := title |}.

(** The rows of the award list whose film was watched, and the others:
    [df_award[df_award["id"].isin(df_films["id"])]] and the same
    under [~]. *)
Definition award_split (df_award df_films : DataFrame num)
  : option (DataFrame num * DataFrame num) :=
  ids ← col df_award "id";
  film_ids ← col df_films "id";
  let isin := cell_isin film_ids <$> ids in
  Some (select df_award isin, select df_award (negb <$> isin)).

(** [df_award] is the table read from [csv/<award>.csv]. *)
Definition create_progression (df_award : DataFrame num) (title : string)
    (df_films : DataFrame num) : option Pie :=
  '(df_watched, df_not_watched) ← award_split df_award df_films;
  watched ← tolist df_watched "title";
  not_watched ← tolist df_not_watched "title";
  Some (df_pie title watched not_watched).

Definition create_progression_countries (df_countries : DataFrame num)
    (countries_not_watched : list (cell num)) : option Pie :=
  watched ← tolist df_countries "country";
  let not_watched := countries_not_watched in
  Some (df_pie "Countries with a watched film" watched not_watched).

(** *** create_scatter_ratings *)

Definition create_scatter_ratings (df_films : DataFrame num)
  : option (Scatter num) :=
  df_count ← groupby2_size df_films "press rating" "spectator rating";
  Some {| sc_x := (λ g, g.1.1) <$> df_count;
          sc_y := (λ g, g.1.2) <$> df_count;
          sc_size := snd <$> df_count;
          sc_size_max := 5;
          sc_title := "Spectator ratings in function of press ratings";
          sc_height := 400;
          sc_xaxis_range := (0, 5)%Z;
          sc_yaxis_range := (0, 5)%Z |}.

(** *** create_home: the country table

    [df_countries] is [csv/countries.csv]; the result is
    [countries_not_watched] and the table every later call receives. *)
Definition home_countries (csv : DataFrame num)
  : option (list (cell num) * DataFrame num) :=
  df_countries ← sort_values_desc csv "number";
  number ← col df_countries "number";
  let zero := Num (num_of_Z 0) in
  countries_not_watched ←
    tolist (select df_countries ((λ c, cell_eqb c zero) <$> number)) "country";
  Some (countries_not_watched,
        select df_countries ((λ c, cell_neb c zero) <$> number)).

End Charts.

(** ** streamlit: the page, the session state and the person grid *)

Section Streamlit.
Context {num : Type} `{!Number num}.

(** [person.Person] is imported from a module outside this file: its
    constructor and the two getters the grid calls are parameters. *)
Context {Person : Type}.
Context (Person_new : cell num → Person).
Context (get_name get_image : Person → string).

(** What [st.session_state] holds. *)
Inductive obj :=
| ObjPerson (p : Person)
| ObjFrame (df : DataFrame num).

Inductive widget :=
| Columns (n : nat)
| Button (label : string)
| Markdown (html : string).

(** One run of the script: the session state it shares with earlier
    runs, the widgets emitted so far, the buttons the visitor clicked,
    and the arguments of every [Person(...)] call made so far. *)
Record App := {
  session_state : gmap string obj;
  page : list widget;
  clicked : gset string;
  constructed : list (cell num);
}.

Inductive outcome (A : Type) :=
| Done (a : A)
| Switch (target : string)    (* [st.switch_page] ends the run *)
| Raise.                      (* an uncaught exception *)
Arguments Done {A} a.
Arguments Switch {A} target.
Arguments Raise {A}.

Definition St (A : Type) : Type := App → outcome A * App.

Definition ret {A} (a : A) : St A := λ s, (Done a, s).

Definition bind {A B} (m : St A) (k : A → St B) : St B :=
  λ s, match m s with
       | (Done a, s') => k a s'
       | (Switch t, s') => (Switch t, s')
       | (Raise, s') => (Raise, s')
       end.

Notation "x ←ₛ m ; k" := (bind m (λ x, k))
  (at level 20, m at level 100, k at level 200, only parsing).
Notation "m ;;ₛ k" := (bind m (λ _, k))
  (at level 100, k at level 200, right associativity, only parsing).

Definition try_ {A} (o : option A) : St A :=
  λ s, match o with Some a => (Done a, s) | None => (Raise, s) end.

Definition emit (w : widget) : St unit :=
  λ s, (Done (), {| session_state := session_state s;
                    page := page s ++ [w];
                    clicked := clicked s;
                    constructed := constructed s |}).

Definition st_columns (n : nat) : St unit := emit (Columns n).

Definition st_markdown (html : string) : St unit := emit (Markdown html).

(** [st.button(label)]: true in the run that follows a click on it. *)
Definition st_button (label : string) : St bool :=
  emit (Button label) ;;ₛ
  λ s, (Done (bool_decide (label ∈ clicked s)), s).

Definition st_switch_page (target : string) : St unit :=
  λ s, (Switch target, s).

(** [key in st.session_state]. *)
Definition session_has (key : string) : St bool :=
  λ s, (Done (bool_decide (is_Some (session_state s !! key))), s).

(** [st.session_state[key]]. *)
Definition session_get (key : string) : St obj :=
  λ s, try_ (session_state s !! key) s.

(** [st.session_state[key] = v]. *)
Definition session_set (key : string) (v : obj) : St unit :=
  λ s, (Done (), {| session_state := <[key := v]> (session_state s);
                    page := page s;
                    clicked := clicked s;
                    constructed := constructed s |}).

(** [Person(id)], noted in the log of constructor calls. *)
Definition new_person (id : cell num) : St Person :=
  λ s, (Done (Person_new id),
        {| session_state := session_state s;
           page := page s;
           clicked := clicked s;
           constructed := constructed s ++ [id] |}).

(** A method call on what the cache returned. *)
Definition as_person (o : obj) : St Person :=
  match o with
  | ObjPerson p => ret p
  | ObjFrame _ => λ s, (Raise, s)
  end.

Fixpoint for_ {A} (l : list A) (body : A → St unit) : St unit :=
  match l with
  | [] => ret ()
  | x :: l' => body x ;;ₛ for_ l' body
  end.

(** The session key of a person, [f"person_{id}"]. *)
Definition person_key (id : cell num) : string := "person_" +:+ cell_str id.

(** The body of the inner loop for the person at position [idx]. *)
Definition person_slot (people : DataFrame num) (idx : nat) : St unit :=
  id ←ₛ try_ (iloc people idx "id");
  let key := person_key id in
  cached ←ₛ session_has key;
  (if negb cached
   then (person ←ₛ new_person id; session_set key (ObjPerson person))
   else ret ()) ;;ₛ
  cache_entry ←ₛ session_get key;
  person ←ₛ as_person cache_entry;
  st_columns 3 ;;ₛ
  button ←ₛ st_button (get_name person);
  st_markdown ("<div style='text-align: center;'><img src='"
               +:+ get_image person +:+ "' height='200'></div>") ;;ₛ
  number ←ₛ try_ (iloc people idx "number");
  st_markdown ("<p style='text-align: center;'>" +:+ cell_str number
               +:+ " films</p>") ;;ₛ
  if button
  then (session_set "person" (ObjPerson person) ;;ₛ
        st_switch_page "actor_page.py")
  else ret ().

Definition create_persons (df_persons : DataFrame num) : St unit :=
  let cols_per_row := 3%nat in
  let num_people := (3 * cols_per_row)%nat in
  let people := head num_people df_persons in
  for_ (Py.range0 (len people) cols_per_row) (λ i,
    st_columns cols_per_row ;;ₛ
    for_ (seq 0 cols_per_row) (λ j,
      if (i + j <? len people)%nat
      then person_slot people (i + j)
      else ret ())).

(** One render of the grid in a run where the visitor clicked [clicks]:
    the session state and the constructor log carry over, the page
    starts empty. *)
Definition render (s : App) (run : DataFrame num * gset string) : App :=
  (create_persons run.1
     {| session_state := session_state s;
        page := [];
        clicked := run.2;
        constructed := constructed s |}).2.

(** A visit: one render after the other. *)
Definition visit (s : App) (runs : list (DataFrame num * gset string)) : App :=
  foldl render s runs.

End Streamlit.

Arguments Done {A} a.
Arguments Switch {A} target.
Arguments Raise {A}.
Arguments obj num Person : clear implicits.
Arguments App num Person : clear implicits.

(** ** The cache of persons in the session state

    The relations used to state what the person grid does to the
    session state and to the log of constructor calls. *)

Section Cache.
Context {num : Type} `{!Number num} {Person : Type}.
Context (Person_new : cell num → Person).

(** From [s] to [s']: no entry other than the selection slot "person"
    is changed or removed, and every constructor call made on the way
    was for a person without a cache entry in [s], is made once, and
    its result is the entry of that person in [s']. *)
Definition keeps_cache (s s' : App num Person) : Prop :=
  (∀ key v, key ≠ "person" →
     session_state s !! key = Some v → session_state s' !! key = Some v)
  ∧ ∃ new,
      constructed s' = constructed s ++ new
      ∧ NoDup new
      ∧ ∀ id, id ∈ new →
          session_state s !! person_key id = None
          ∧ session_state s' !! person_key id
            = Some (ObjPerson (Person_new id)).

(** A computation that keeps the cache from every state. *)
Definition preserves {A} (m : St A) : Prop :=
  ∀ s : App num Person, keeps_cache s (m s).2.

(** No person was constructed twice, and every constructed person has
    a cache entry. *)
Definition cache_coherent (s : App num Person) : Prop :=
  NoDup (constructed s)
  ∧ ∀ id, id ∈ constructed s → is_Some (session_state s !! person_key id).
End Cache.

(** ** The map of countries and the films without press rating *)

Section Map.
Context {num : Type} `{!Number num}.

(** [px.choropleth] with the styling of [create_map]. *)
Record Choropleth := {
  geo_locations : list (cell num);
  geo_locationmode : string;
  geo_color : list (cell num);
  geo_hover_name : list (cell num);
  geo_color_scale : list string;
  geo_title : string;
  geo_color_label : string;
  geo_show_scale : bool;
  geo_height : Z;
  geo_scroll_zoom : bool;
}.

(** plotly refuses a column name that the table does not have
    (ValueError), so the three columns the call names must exist. *)
Definition create_map (df_countries : DataFrame num) : option Choropleth :=
  locations ← col df_countries "country_en";
  color ← col df_countries "number";
  hover_name ← col df_countries "hover_text";
  Some {| geo_locations := locations;
          geo_locationmode := "country names";
          geo_color := color;
          geo_hover_name := hover_name;
          geo_color_scale := ["#83C9FF"; "#0068C9"];
          geo_title := "Films by country";
          geo_color_label := "Number of films";
          geo_show_scale := false;
          geo_height := 500;
          geo_scroll_zoom := false |}.

(** [df_films[df_films["press rating"].isna()]], the table of the
    histogram "Films without press rating by spectator rating". *)
Definition without_press_rating (df_films : DataFrame num)
  : option (DataFrame num) :=
  press ← col df_films "press rating";
  Some (select df_films (isna <$> press)).

(** A cell of a numeric column: a number or a missing value. *)
Definition numeric (c : cell num) : bool :=
  match c with Str _ => false | _ => true end.
End Map.

Arguments Choropleth num : clear implicits.

(** The buttons among the widgets of a page. *)
Definition is_button (w : widget) : bool :=
  match w with Button _ => true | _ => false end.

Definition buttons (page : list widget) : list widget :=
  filter (λ w, is_button w = true) page.

Section Widgets.
Context {num Person : Type}.

(** A computation keeps the widgets already on the page and adds at most
    [n] buttons. *)
Definition shows {A} (n : nat) (m : St A) : Prop :=
  ∀ s : App num Person,
    page s `prefix_of` page (m s).2
    ∧ length (buttons (page (m s).2)) ≤ length (buttons (page s)) + n.

(** In a run where the visitor clicked the buttons [clicks], a
    computation leaves the page only for "actor_page.py", after storing
    under "person" a person whose button was clicked. *)
Definition leaves_on_click {A} (get_name : Person → string)
    (clicks : gset string) (m : St A) : Prop :=
  ∀ s : App num Person,
    clicked s = clicks →
    clicked (m s).2 = clicks
    ∧ ∀ target, (m s).1 = Switch target →
        target = "actor_page.py"
        ∧ ∃ person,
            session_state (m s).2 !! "person" = Some (ObjPerson person)
            ∧ get_name person ∈ clicks.
End Widgets.

(** ** Sample tables

    Small tables over integer scalars, used to run the builders. *)

Definition film (id : Z) (title : string) (duration : Z)
    (press_rating : cell Z) : gmap string (cell Z) :=
  {[ "id" := Num id; "title" := Str title; "duration" := Num duration;
     "press rating" := press_rating; "spectator rating" := Num 4%Z ]}.

Definition film_columns : list string :=
  ["id"; "title"; "duration"; "press rating"; "spectator rating"].

(** Three films with durations 90, 120 and 90; the second has no press
    rating. *)
Definition three_films : DataFrame Z :=
  {| columns := film_columns;
     records := [film 1 "Alien" 90 (Num 4%Z);
                 film 2 "Brazil" 120 NaN;
                 film 3 "Cabaret" 90 (Num 3%Z)] |}.

(** Seven films of the same duration and press rating. *)
Definition seven_films : DataFrame Z :=
  {| columns := film_columns;
     records := (λ i, film i ("Film " +:+ pretty i) 100 (Num 3%Z))
                <$> [1; 2; 3; 4; 5; 6; 7]%Z |}.

Definition award_row (id : Z) (title : string) : gmap string (cell Z) :=
  {[ "id" := Num id; "title" := Str title ]}.

Definition some_awards : DataFrame Z :=
  {| columns := ["id"; "title"];
     records := [award_row 3 "Cabaret"; award_row 8 "Gandhi";
                 award_row 1 "Alien"] |}.

(** An award list whose films were all watched. *)
Definition seen_awards : DataFrame Z :=
  {| columns := ["id"; "title"];
     records := [award_row 3 "Cabaret"; award_row 1 "Alien"] |}.

Definition country_row (country : string) (number : Z) : gmap string (cell Z) :=
  {[ "country" := Str country; "number" := Num number ]}.

Definition some_countries : DataFrame Z :=
  {| columns := ["country"; "number"];
     records := [country_row "Chili" 0; country_row "France" 12;
                 country_row "Japon" 3; country_row "Togo" 0] |}.

Definition person_row (id number : Z) : gmap string (cell Z) :=
  {[ "id" := Num id; "number" := Num number ]}.

(** Four directors; the person 7 is listed twice. *)
Definition some_persons : DataFrame Z :=
  {| columns := ["id"; "number"];
     records := [person_row 7 9; person_row 5 6; person_row 7 4;
                 person_row 2 1] |}.

(** A fresh visit: nothing cached, no constructor called. *)
Definition new_visit (Person : Type) : App Z Person :=
  {| session_state := ∅; page := []; clicked := ∅; constructed := [] |}.

(** The country table as the file has it, with the English names the
    map needs. *)
Definition country_en_row (country country_en : string) (number : Z)
  : gmap string (cell Z) :=
  {[ "country" := Str country; "country_en" := Str country_en;
     "number" := Num number ]}.

Definition countries_csv : DataFrame Z :=
  {| columns := ["country"; "country_en"; "number"];
     records := [country_en_row "Chili" "Chile" 0;
                 country_en_row "Japon" "Japan" 3;
                 country_en_row "France" "France" 12] |}.

(** Films with the countries they come from. *)
Definition film_from (id : Z) (title countries : string)
  : gmap string (cell Z) :=
  {[ "id" := Num id; "title" := Str title; "countries" := Str countries ]}.

Definition films_by_country : DataFrame Z :=
  {| columns := ["id"; "title"; "countries"];
     records := [film_from 1 "Ran" "Japon,France";
                 film_from 2 "Playtime" "France,Italie"] |}.

(** Eleven persons. *)
Definition eleven_persons : DataFrame Z :=
  {| columns := ["id"; "number"];
     records := (λ i, person_row i (20 - i)) <$> seqZ 1 11 |}.

(** * Properties *)

(** ** Strings *)

Lemma last_snoc (s : string) (c : ascii) :
  Py.last (s +:+ String c EmptyString) = Some c.
Proof.
  induction s as [|a s IH]; [done|].
  simpl. rewrite IH. by destruct s.
Qed.

Lemma init_snoc (s : string) (c : ascii) :
  Py.init (s +:+ String c EmptyString) = s.
Proof.
  induction s as [|a s IH]; [done|].
  simpl. rewrite IH. by destruct s.
Qed.

Lemma last_Some_snoc (s : string) (c : ascii) :
  Py.last s = Some c → s = Py.init s +:+ String c EmptyString.
Proof.
  induction s as [|a s IH]; [done|].
  destruct s as [|b s]; [simpl; naive_solver|].
  intros H. change (Py.last (String b s) = Some c) in H.
  change (String a (String b s)
          = String a (Py.init (String b s) +:+ String c EmptyString)).
  f_equal. by apply IH.
Qed.

Lemma last_is_Some (s : string) : s ≠ "" → is_Some (Py.last s).
Proof.
  induction s as [|a s IH]; [done|]. intros _.
  simpl. destruct s as [|b s]; [by eexists|]. by apply IH.
Qed.

Lemma or_nonempty (a b : string) : a ≠ "" → Py.or_ a b = a.
Proof. intros H. unfold Py.or_. by case_decide. Qed.

(** ** The plural of a category word *)

(** C3, as the code has it: the word "country" ends in "y", so the builder
    takes the second branch and forms "countries". *)
Theorem plural_country : plural "country" = Some "countries".
Proof. reflexivity. Qed.

(** C3, refuted as stated: the plural formed for "country" is not
    "countrys". *)
Lemma plural_country_not_countrys : plural "country" ≠ Some "countrys".
Proof. intros H. vm_compute in H. discriminate H. Qed.

(** C7: for a non-empty word the plural is defined; a word [stem ++ "y"]
    gives [stem ++ "ies"], any other word gets an "s" appended, and
    "genre" gives "genres". *)
Theorem plural_rule (categories : string) :
  categories ≠ "" →
  is_Some (plural categories)
  ∧ (∀ stem, categories = stem +:+ "y" →
       plural categories = Some (stem +:+ "ies"))
  ∧ ((∀ stem, categories ≠ stem +:+ "y") →
       plural categories = Some (categories +:+ "s"))
  ∧ plural "genre" = Some "genres".
Proof.
  intros Hne. destruct (last_is_Some _ Hne) as [c Hc].
  unfold plural. rewrite Hc. simpl. repeat split.
  - by eexists.
  - intros stem ->. rewrite last_snoc in Hc. injection Hc as <-.
    case_decide; [done|]. by rewrite init_snoc.
  - intros Hstem. case_decide as Hy; [done|].
    subst c.
    by destruct (Hstem _ (last_Some_snoc _ _ Hc)).
Qed.

Lemma plural_rule_witness :
  "country" ≠ ""
  ∧ plural "country" = Some ("countr" +:+ "ies")
  ∧ plural "genre" = Some "genres".
Proof.
  split; [done|].
  destruct (plural_rule "country" ltac:(done)) as (_ & Hy & _ & Hg).
  split; [by apply Hy | exact Hg].
Defined.

(** ** Tooltips of the progression pies *)

Section Tooltip.
Context {num : Type} `{!Number num}.

(** The left operand of [or] starts with "Number: ", so it is never
    empty and the tooltip is that operand. *)
Lemma tooltip_eq (l : list (cell num)) :
  tooltip l = "Number: " +:+ pretty (length l) +:+ "<br>"
              +:+ Py.join "<br>" (cell_str <$> take 5 l).
Proof. unfold tooltip. by apply or_nonempty. Qed.

Lemma tooltip_not_None (l : list (cell num)) : tooltip l ≠ "None".
Proof. by rewrite tooltip_eq. Qed.
End Tooltip.

(** C2, on the code: when every film of the award list was watched the
    not-watched list of [create_progression] is empty, and with an empty
    country table and no unwatched country both lists of
    [create_progression_countries] are; the hover label of an empty list
    is then "Number: 0<br>", and no list at all gives the label "None". *)
Theorem empty_list_tooltip :
  pie_hover_name
    <$> create_progression seen_awards "Watched Palmes d'Or" three_films
    = Some ["Number: 2<br>Cabaret<br>Alien"; "Number: 0<br>"]
  ∧ pie_hover_name
      <$> create_progression_countries
            {| columns := ["country"; "number"]; records := [] |}
            ([] : list (cell Z))
    = Some ["Number: 0<br>"; "Number: 0<br>"]
  ∧ ∀ l : list (cell Z), tooltip l ≠ "None".
Proof. repeat split. apply tooltip_not_None. Qed.

(** ** The numeric histogram *)

(** C9: a films table whose duration column is [90, 120, 90] is grouped
    into 90 with count 2 and 120 with count 1, and nothing else. *)
Theorem duration_groups (df_films : DataFrame Z) :
  col df_films "duration" = Some [Num 90; Num 120; Num 90]%Z →
  groupby_size df_films "duration"
  = Some [(Num 90%Z, 2%nat); (Num 120%Z, 1%nat)].
Proof. intros H. unfold groupby_size. rewrite H. reflexivity. Qed.

Lemma duration_groups_witness :
  groupby_size three_films "duration"
  = Some [(Num 90%Z, 2%nat); (Num 120%Z, 1%nat)].
Proof. apply duration_groups. reflexivity. Defined.

Section HistNumbers.
Context {num : Type} `{!Number num}.

(** C6: when the column name contains "rating" the figure of the
    numeric histogram has its x-axis range set to [0, 5] and height
    400; any other column gives height 500 and leaves the range
    alone. *)
Theorem rating_histogram_layout (df_films : DataFrame num) (value : string)
    (mean : bool) (hist_title : option string) (fig : Bar num) :
  create_hist_numbers df_films value mean hist_title = Some fig →
  (Py.contains "rating" value = true →
     bar_xaxis_range fig = Some (0, 5)%Z ∧ bar_height fig = 400%Z)
  ∧ (Py.contains "rating" value = false →
     bar_xaxis_range fig = None ∧ bar_height fig = 500%Z).
Proof.
  unfold create_hist_numbers. intros Hfig.
  destruct (groupby_size _ _) as [df_count|]; [|done]. simpl in Hfig.
  destruct (mapM _ _) as [hover_text|]; [|done]. simpl in Hfig.
  destruct (if mean then _ else _) as [vline|]; [|done]. simpl in Hfig.
  injection Hfig as <-. simpl.
  split; intros ->; done.
Qed.
End HistNumbers.

Lemma rating_histogram_layout_witness :
  ∃ fig, create_hist_numbers three_films "press rating" true None = Some fig
         ∧ bar_xaxis_range fig = Some (0, 5)%Z ∧ bar_height fig = 400%Z.
Proof.
  destruct (create_hist_numbers three_films "press rating" true None)
    as [fig|] eqn:Hfig; [|vm_compute in Hfig; discriminate Hfig].
  exists fig. split; [reflexivity|].
  apply (rating_histogram_layout _ _ _ _ _ Hfig). reflexivity.
Defined.

(** ** Masks, groups and sorting *)

Lemma boolean_index_fmap {A} (p : A → bool) (rows : list A) :
  boolean_index rows (p <$> rows) = filter (λ r, p r = true) rows.
Proof.
  induction rows as [|r rows IH]; [done|].
  csimpl. rewrite filter_cons, IH.
  destruct (p r); by case_decide.
Qed.

Lemma boolean_index_fmap_negb {A} (p : A → bool) (rows : list A) :
  boolean_index rows (negb <$> (p <$> rows))
  = filter (λ r, ¬ p r = true) rows.
Proof.
  induction rows as [|r rows IH]; [done|].
  csimpl. rewrite filter_cons, IH.
  destruct (p r); by case_decide.
Qed.

(** A mask and its negation split the rows. *)
Lemma boolean_index_split {A} (p : A → bool) (rows : list A) :
  rows ≡ₚ boolean_index rows (p <$> rows)
          ++ boolean_index rows (negb <$> (p <$> rows)).
Proof.
  rewrite boolean_index_fmap, boolean_index_fmap_negb.
  symmetry. apply filter_app_complement.
Qed.

Section GroupSizes.
Context {K : Type} (eqb ltb : K → K → bool).

Lemma count_key_sum (k : K) (groups : list (K * nat)) :
  sum_list (count_key eqb ltb k groups).*2 = S (sum_list groups.*2).
Proof.
  induction groups as [|[k' n] groups IH]; [done|].
  csimpl. destruct (eqb k k'); [done|].
  destruct (ltb k k'); [done|].
  csimpl. rewrite IH. lia.
Qed.

Lemma foldl_count_key_sum (keys : list K) (groups : list (K * nat)) :
  sum_list (foldl (λ groups k, count_key eqb ltb k groups) groups keys).*2
  = sum_list groups.*2 + length keys.
Proof.
  revert groups. induction keys as [|k keys IH]; intros groups; csimpl.
  - lia.
  - rewrite IH, count_key_sum. lia.
Qed.

(** Every key adds one to exactly one group. *)
Lemma group_sizes_sum (keys : list K) :
  sum_list (group_sizes eqb ltb keys).*2 = length keys.
Proof. unfold group_sizes. by rewrite foldl_count_key_sum. Qed.
End GroupSizes.

Lemma filter_all {A} (P : A → Prop) `{!∀ x, Decision (P x)} (l : list A) :
  Forall P l → filter P l = l.
Proof.
  induction 1 as [|x l Hx _ IH]; [done|].
  rewrite filter_cons, IH. by case_decide.
Qed.

Section PandasFacts.
Context {num : Type} `{!Number num}.

Lemma col_Some (df : DataFrame num) (c : string) (cells : list (cell num)) :
  col df c = Some cells →
  c ∈ columns df ∧ cells = (λ r, row_at r c) <$> records df.
Proof. unfold col. case_decide; naive_solver. Qed.

Lemma col_length (df : DataFrame num) (c : string) (cells : list (cell num)) :
  col df c = Some cells → length cells = len df.
Proof.
  intros [_ ->]%col_Some. unfold len. by rewrite length_fmap.
Qed.

Lemma insert_desc_perm (label : string) (r : gmap string (cell num))
    (sorted : list (gmap string (cell num))) :
  insert_desc label r sorted ≡ₚ r :: sorted.
Proof.
  induction sorted as [|r' sorted IH]; [done|].
  simpl. destruct (desc_before label r' r); [|done].
  rewrite IH. apply Permutation_swap.
Qed.

(** Sorting keeps every row. *)
Lemma sort_values_desc_perm (df sorted : DataFrame num) (label : string) :
  sort_values_desc df label = Some sorted →
  columns sorted = columns df ∧ records sorted ≡ₚ records df.
Proof.
  unfold sort_values_desc. case_decide; [|done].
  intros [= <-]. simpl. split; [done|].
  induction (records df) as [|r rows IH]; [done|].
  simpl. by rewrite insert_desc_perm, IH.
Qed.

(** C1, as the code has it: the group sizes of the histogram add up to
    the number of rows whose key is present, and those of the rating
    scatter to the number of rows whose two ratings are both present;
    when no key is missing that is the number of rows of the table. *)
Theorem group_counts_sum (df_films : DataFrame num) :
  (∀ value df_count,
     groupby_size df_films value = Some df_count →
     ∃ keys,
       col df_films value = Some keys
       ∧ sum_list df_count.*2 = length (filter (λ k, notna k = true) keys)
       ∧ (Forall (λ k, notna k = true) keys →
          sum_list df_count.*2 = len df_films))
  ∧ (∀ fig,
       create_scatter_ratings df_films = Some fig →
       ∃ press spectator,
         col df_films "press rating" = Some press
         ∧ col df_films "spectator rating" = Some spectator
         ∧ sum_list (sc_size fig)
           = length (filter (λ k, pair_notna k = true) (zip press spectator))
         ∧ (Forall (λ k, notna k = true) press →
            Forall (λ k, notna k = true) spectator →
            sum_list (sc_size fig) = len df_films)).
Proof.
  split.
  - intros value df_count. unfold groupby_size.
    case_decide; [done|].
    destruct (col df_films value) as [keys|] eqn:Hkeys; [|done].
    simpl. intros [= <-]. exists keys.
    rewrite group_sizes_sum. repeat split.
    intros Hall. rewrite (filter_all _ _ Hall). by eapply col_length.
  - intros fig. unfold create_scatter_ratings, groupby2_size.
    case_decide; [done|].
    destruct (col df_films "press rating") as [press|] eqn:Hp; [|done].
    destruct (col df_films "spectator rating") as [spectator|] eqn:Hs;
      [|done].
    simpl. intros [= <-]. exists press, spectator. simpl.
    rewrite group_sizes_sum. repeat split.
    intros Hpress Hspect. rewrite filter_all.
    + rewrite length_zip. apply col_length in Hp, Hs. lia.
    + apply Forall_forall. intros [a b] Hin.
      apply elem_of_zip_l in Hin as Ha. apply elem_of_zip_r in Hin as Hb.
      rewrite Forall_forall in Hpress, Hspect.
      unfold pair_notna. simpl in *.
      by rewrite (Hpress _ Ha), (Hspect _ Hb).
Qed.
End PandasFacts.

(** C1, refuted as stated: the second of the three films has no press
    rating, so the press-rating groups hold two rows of three. *)
Lemma group_counts_miss_rows :
  ¬ ∀ (df_films : DataFrame Z) value df_count,
      groupby_size df_films value = Some df_count →
      sum_list df_count.*2 = len df_films.
Proof.
  intros H.
  specialize (H three_films "press rating" _ eq_refl).
  vm_compute in H. discriminate H.
Qed.

Lemma group_counts_sum_witness :
  ∃ df_count,
    groupby_size seven_films "duration" = Some df_count
    ∧ sum_list df_count.*2 = len seven_films.
Proof.
  destruct (groupby_size seven_films "duration") as [df_count|] eqn:Hc;
    [|vm_compute in Hc; discriminate Hc].
  exists df_count. split; [reflexivity|].
  destruct (group_counts_sum seven_films) as [Hhist _].
  destruct (Hhist _ _ Hc) as (keys & Hkeys & _ & Hall).
  apply Hall.
  vm_compute in Hkeys. injection Hkeys as <-.
  repeat constructor.
Defined.

(** ** Watched and not watched *)

Section Membership.
Context {num : Type} `{!Number num}.

(** [isin] finds a value exactly when the list holds one that equals
    it, or when both are missing. *)
Lemma cell_isin_true (values : list (cell num)) (c : cell num) :
  cell_isin values c = true
  ↔ ∃ v, v ∈ values ∧ (cell_eqb c v = true ∨ (c = NaN ∧ v = NaN)).
Proof.
  unfold cell_isin. induction values as [|v values IH]; simpl.
  - split; [done|]. by intros (v & ?%elem_of_nil & _).
  - rewrite orb_true_iff, IH. split.
    + intros [Hv|(w & Hw & Hsame)].
      * exists v. split; [by left|].
        apply orb_true_iff in Hv as [?|[? ?]%andb_true_iff]; [by left|].
        right. by destruct c, v.
      * exists w. split; [by right | done].
    + intros (w & [->|Hw]%elem_of_cons & Hsame).
      * left. apply orb_true_iff.
        destruct Hsame as [?|[-> ->]]; [by left | by right].
      * right. by exists w.
Qed.

(** When [==] on numbers decides their identity, [isin] is membership
    in the list. *)
Lemma cell_isin_elem_of (values : list (cell num)) (c : cell num) :
  (∀ x y : num, num_eqb x y = true ↔ x = y) →
  cell_isin values c = true ↔ c ∈ values.
Proof.
  intros Hnum. rewrite cell_isin_true. split.
  - intros (v & Hv & [Heq|[-> ->]]); [|done].
    destruct c as [|x|s], v as [|y|t]; try done; simpl in Heq.
    + apply Hnum in Heq as ->. done.
    + apply String.eqb_eq in Heq as ->. done.
  - intros Hc. exists c. split; [done|].
    destruct c as [|x|s]; simpl.
    + by right.
    + left. by apply Hnum.
    + left. apply String.eqb_refl.
Qed.
End Membership.

Section Progression.
Context {num : Type} `{!Number num}.

(** C4: the two selections of [create_progression] split the award
    list.  Every row of the list is in exactly one of them: in the
    watched one when some film identifier equals its identifier (or
    both are missing), in the other one when no film identifier does;
    where [==] on numbers decides their identity, that is: when its
    identifier occurs among the film identifiers, and when it does not.
    The two sizes shown by the pie add up to the length of the list. *)
Theorem award_partition (df_award df_films : DataFrame num)
    (title : string) (fig : Pie) :
  create_progression df_award title df_films = Some fig →
  ∃ df_watched df_not_watched film_ids,
    award_split df_award df_films = Some (df_watched, df_not_watched)
    ∧ col df_films "id" = Some film_ids
    ∧ records df_award ≡ₚ records df_watched ++ records df_not_watched
    ∧ Forall (λ r, ∃ v, v ∈ film_ids
                        ∧ (cell_eqb (row_at r "id") v = true
                           ∨ (row_at r "id" = NaN ∧ v = NaN)))
             (records df_watched)
    ∧ Forall (λ r, ∀ v, v ∈ film_ids →
                        cell_eqb (row_at r "id") v = false
                        ∧ ¬ (row_at r "id" = NaN ∧ v = NaN))
             (records df_not_watched)
    ∧ ((∀ x y : num, num_eqb x y = true ↔ x = y) →
       Forall (λ r, row_at r "id" ∈ film_ids) (records df_watched)
       ∧ Forall (λ r, row_at r "id" ∉ film_ids) (records df_not_watched))
    ∧ pie_values fig = [len df_watched; len df_not_watched]
    ∧ len df_watched + len df_not_watched = len df_award.
Proof.
  unfold create_progression, award_split. intros Hfig.
  destruct (col df_award "id") as [ids|] eqn:Hids; [|done].
  destruct (col df_films "id") as [film_ids|] eqn:Hfilms; [|done].
  apply col_Some in Hids as [_ ->].
  simpl in Hfig |- *.
  rewrite <- !list_fmap_compose in Hfig |- *.
  set (isin := cell_isin film_ids ∘ (λ r, row_at r "id")) in *.
  eexists _, _, film_ids. split; [done|]. split; [done|].
  assert (records df_award
          ≡ₚ boolean_index (records df_award) (isin <$> records df_award)
             ++ boolean_index (records df_award)
                  (negb <$> (isin <$> records df_award))) as Hsplit
    by apply boolean_index_split.
  rewrite <- list_fmap_compose in Hsplit.
  split; [exact Hsplit|]. simpl.
  assert (Forall (λ r, cell_isin film_ids (row_at r "id") = true)
            (boolean_index (records df_award) (isin <$> records df_award)))
    as Hwatched.
  { rewrite boolean_index_fmap. apply Forall_forall.
    by intros r [? _]%list_elem_of_filter. }
  assert (Forall (λ r, cell_isin film_ids (row_at r "id") = false)
            (boolean_index (records df_award)
               (negb ∘ isin <$> records df_award))) as Hnot.
  { rewrite list_fmap_compose, boolean_index_fmap_negb.
    apply Forall_forall.
    intros r [Hr _]%list_elem_of_filter. by apply not_true_is_false. }
  split; [|split; [|split]].
  - eapply Forall_impl; [exact Hwatched|].
    intros r Hr. by apply cell_isin_true.
  - eapply Forall_impl; [exact Hnot|].
    intros r Hr v Hv.
    assert (¬ (cell_eqb (row_at r "id") v = true
               ∨ (row_at r "id" = NaN ∧ v = NaN))) as Hnone.
    { intros Hsame. apply not_true_iff_false in Hr. apply Hr.
      apply cell_isin_true. by exists v. }
    split; [apply not_true_is_false|]; intros ?; apply Hnone; tauto.
  - intros Hlawful. split.
    + eapply Forall_impl; [exact Hwatched|].
      intros r Hr. by apply cell_isin_elem_of.
    + eapply Forall_impl; [exact Hnot|].
      intros r Hr Hin. apply (cell_isin_elem_of _ _ Hlawful) in Hin.
      congruence.
  - unfold tolist in Hfig.
    destruct (col (select df_award (isin <$> _)) "title")
      as [watched|] eqn:Hw; [|done].
    simpl in Hfig.
    destruct (col (select df_award (negb ∘ isin <$> _)) "title")
      as [not_watched|] eqn:Hnw; [|done].
    injection Hfig as <-. simpl.
    apply col_length in Hw, Hnw. rewrite Hw, Hnw.
    split; [done|].
    unfold len. simpl.
    by rewrite (Permutation_length Hsplit), length_app.
Qed.

End Progression.

Lemma award_partition_witness :
  ∃ fig df_watched df_not_watched film_ids,
    create_progression some_awards "Watched Oscars" three_films = Some fig
    ∧ award_split some_awards three_films = Some (df_watched, df_not_watched)
    ∧ col three_films "id" = Some film_ids
    ∧ Forall (λ r, row_at r "id" ∈ film_ids) (records df_watched)
    ∧ Forall (λ r, row_at r "id" ∉ film_ids) (records df_not_watched)
    ∧ pie_values fig = [len df_watched; len df_not_watched]
    ∧ len df_watched + len df_not_watched = len some_awards.
Proof.
  destruct (create_progression some_awards "Watched Oscars" three_films)
    as [fig|] eqn:Hfig; [|vm_compute in Hfig; discriminate Hfig].
  destruct (award_partition _ _ _ _ Hfig)
    as (w & nw & ids & Hsplit & Hids & _ & _ & _ & Hin & Hvalues & Hlen).
  destruct (Hin Z.eqb_eq) as [Hw Hnw].
  by exists fig, w, nw, ids.
Defined.


(** ** Example titles in hover texts *)

Section HoverExamples.
Context {num : Type} `{!Number num}.
Context (re_search : string → string → bool).

Lemma mapM_take_5 {A B} (f : A → option B) (l : list A) (k : list B) :
  mapM f (take 5 l) = Some k → length k ≤ 5.
Proof.
  intros <-%length_mapM. rewrite length_take. lia.
Qed.

(** C5: whatever the size of a group, its hover text is a header
    followed by the join of at most five example titles: in the numeric
    histogram, in the categorical histogram, and in both slices of the
    progression pies (where the examples are the first titles of the
    list). *)
Theorem hover_lists_at_most_five :
  (∀ (df_films : DataFrame num) value df_count val text,
     hist_numbers_hover df_films value df_count val = Some text →
     ∃ (number : nat) examples,
       hist_numbers_examples df_films value val = Some examples
       ∧ length examples ≤ 5
       ∧ text = Py.title value +:+ ": " +:+ cell_str val +:+ "<br>Films: "
                +:+ pretty number +:+ "<br>" +:+ Py.join "<br>" examples)
  ∧ (∀ categories plural id_ (df_categories df_films : DataFrame num)
       row text,
       hist_categories_hover re_search categories plural id_
         df_categories df_films row = Some text →
       ∃ examples,
         hist_categories_examples re_search df_films plural (row_at row id_)
           = Some examples
         ∧ length examples ≤ 5
         ∧ text = Py.title categories +:+ ": "
                  +:+ cell_str (row_at row categories) +:+ "<br>Films: "
                  +:+ cell_str (row_at row "number") +:+ "<br>"
                  +:+ Py.join "<br>" examples)
  ∧ (∀ titles : list (cell num),
       ∃ examples,
         examples `prefix_of` titles
         ∧ length examples ≤ 5
         ∧ tooltip titles
           = "Number: " +:+ pretty (length titles) +:+ "<br>"
             +:+ Py.join "<br>" (cell_str <$> examples)).
Proof.
  split; [|split].
  - intros df_films value df_count val text. unfold hist_numbers_hover.
    destruct (list.head _) as [number|]; [|done]. simpl.
    destruct (hist_numbers_examples _ _ _) as [examples|] eqn:Hex; [|done].
    simpl. intros [= <-]. exists number, examples.
    split; [done|]. split; [|done].
    unfold hist_numbers_examples in Hex.
    destruct (col df_films value); [|done]. simpl in Hex.
    destruct (col (select _ _) "title"); [|done]. simpl in Hex.
    by eapply mapM_take_5.
  - intros categories plural id_ df_categories df_films row text.
    unfold hist_categories_hover. case_decide; [|done].
    destruct (hist_categories_examples _ _ _ _) as [examples|] eqn:Hex;
      [|done].
    simpl. intros [= <-]. exists examples.
    split; [done|]. split; [|done].
    unfold hist_categories_examples in Hex.
    destruct (col df_films plural); [|done]. simpl in Hex.
    destruct (str_contains _ _ _); [|done]. simpl in Hex.
    destruct (col (select _ _) "title"); [|done]. simpl in Hex.
    by eapply mapM_take_5.
  - intros titles. exists (take 5 titles).
    split; [apply prefix_take|].
    split; [rewrite length_take; lia|]. apply tooltip_eq.
Qed.
End HoverExamples.

Lemma hover_lists_at_most_five_witness :
  ∃ text (number : nat) examples,
    hist_numbers_hover seven_films "duration" [(Num 100%Z, 7)] (Num 100%Z)
      = Some text
    ∧ hist_numbers_examples seven_films "duration" (Num 100%Z) = Some examples
    ∧ length examples ≤ 5
    ∧ text = "Duration: 100<br>Films: " +:+ pretty number +:+ "<br>"
             +:+ Py.join "<br>" examples.
Proof.
  destruct (hist_numbers_hover seven_films "duration" [(Num 100%Z, 7)]
              (Num 100%Z)) as [text|] eqn:Htext;
    [|vm_compute in Htext; discriminate Htext].
  destruct (hover_lists_at_most_five (λ _ _, true)) as [Hhist _].
  destruct (Hhist _ _ _ _ _ Htext) as (number & examples & Hex & Hlen & Heq).
  exists text, number, examples. repeat split; [exact Hex|exact Hlen|exact Heq].
Defined.

(** ** The person grid and the session cache *)

Section PersonCache.
Context {num : Type} `{!Number num} {Person : Type}.
Context (Person_new : cell num → Person).
Context (get_name get_image : Person → string).

Implicit Types s : App num Person.

Local Abbreviation keeps := (keeps_cache Person_new).
Local Abbreviation ok := (preserves Person_new).

(** The selection slot is no cache key. *)
Lemma person_key_ne (id : cell num) : person_key id ≠ "person".
Proof. unfold person_key. simpl. by intros [=]. Qed.

Lemma keeps_refl s : keeps s s.
Proof.
  split; [done|]. exists []. rewrite app_nil_r.
  split; [done|]. split; [constructor|]. by intros id ?%elem_of_nil.
Qed.

Lemma keeps_trans s1 s2 s3 : keeps s1 s2 → keeps s2 s3 → keeps s1 s3.
Proof.
  intros [Hs12 (new1 & Hc1 & Hnd1 & Hnew1)] [Hs23 (new2 & Hc2 & Hnd2 & Hnew2)].
  split; [by auto|].
  exists (new1 ++ new2). split; [by rewrite Hc2, Hc1, app_assoc|].
  split.
  - apply NoDup_app. split; [done|]. split; [|done].
    intros id [_ H2]%Hnew1 [H2' _]%Hnew2. congruence.
  - intros id [Hin|Hin]%elem_of_app.
    + destruct (Hnew1 _ Hin) as [H1 H2]. split; [done|].
      by apply Hs23; [apply person_key_ne|].
    + destruct (Hnew2 _ Hin) as [H2 H3]. split; [|done].
      destruct (session_state s1 !! person_key id) as [v|] eqn:H1; [|done].
      apply Hs12 in H1; [congruence | apply person_key_ne].
Qed.

(** A step may rely on what the step before it returned. *)
Lemma keeps_bind {A B} (m : St A) (k : A → St B) s :
  keeps s (m s).2 →
  (∀ a s1, m s = (Done a, s1) → keeps s1 (k a s1).2) →
  keeps s (bind m k s).2.
Proof.
  unfold bind. destruct (m s) as [[a|target|] s1]; simpl; [|done..].
  intros H1 H2. eapply keeps_trans; [exact H1 | by apply H2].
Qed.

Lemma keeps_bind_ok {A B} (m : St A) (k : A → St B) s :
  keeps s (m s).2 → (∀ a, ok (k a)) → keeps s (bind m k s).2.
Proof. intros Hm Hk. apply keeps_bind; [done | intros; apply Hk]. Qed.

Lemma ok_bind {A B} (m : St A) (k : A → St B) :
  ok m → (∀ a, ok (k a)) → ok (bind m k).
Proof. intros Hm Hk s. apply keeps_bind; [apply Hm | intros; apply Hk]. Qed.

Lemma ok_ret {A} (a : A) : ok (ret a).
Proof. intros s. apply keeps_refl. Qed.

Lemma ok_try {A} (o : option A) : ok (try_ o).
Proof. intros s. destruct o; apply keeps_refl. Qed.

Lemma ok_emit (w : widget) : ok (emit w).
Proof.
  intros s. split; [done|]. exists []. simpl. rewrite app_nil_r.
  split; [done|]. split; [constructor|]. by intros id ?%elem_of_nil.
Qed.

Lemma ok_button (label : string) : ok (st_button label).
Proof.
  apply ok_bind; [apply ok_emit|]. intros _ s. apply keeps_refl.
Qed.

Lemma ok_switch_page (target : string) : ok (st_switch_page target).
Proof. intros s. apply keeps_refl. Qed.

Lemma ok_session_get (key : string) : ok (session_get key).
Proof. intros s. unfold session_get. apply ok_try. Qed.

Lemma ok_as_person (o : obj num Person) : ok (as_person o).
Proof. destruct o; [apply ok_ret|]. intros s. apply keeps_refl. Qed.

(** Storing the selection touches no cache entry. *)
Lemma ok_select (v : obj num Person) : ok (session_set "person" v).
Proof.
  intros s. split.
  - intros key w Hkey Hw. simpl. by rewrite lookup_insert_ne.
  - exists []. simpl. rewrite app_nil_r.
    split; [done|]. split; [constructor|]. by intros id ?%elem_of_nil.
Qed.

(** The guarded construction: a person is built and stored only under
    a key that has no entry. *)
Lemma keeps_construct (id : cell num) s :
  session_state s !! person_key id = None →
  keeps s (bind (new_person Person_new id)
                (λ person, session_set (person_key id) (ObjPerson person))
                s).2.
Proof.
  intros Hfree. split; simpl.
  - intros key v _ Hv. rewrite lookup_insert_ne; [done|]. congruence.
  - exists [id]. split; [done|]. split; [apply NoDup_singleton|].
    intros id' ->%list_elem_of_singleton.
    split; [done|]. apply lookup_insert_eq.
Qed.

Lemma ok_for {A} (l : list A) (body : A → St unit) :
  (∀ x, ok (body x)) → ok (for_ l body).
Proof.
  intros Hbody. induction l as [|x l IH]; simpl; [apply ok_ret|].
  apply ok_bind; [apply Hbody | by intros _].
Qed.

Create HintDb cache discriminated.
Hint Resolve ok_ret ok_try ok_emit ok_button ok_switch_page ok_session_get
  ok_as_person ok_select : cache.

Ltac ok_steps :=
  repeat first
    [ progress auto with cache
    | match goal with |- ok (if ?b then _ else _) => destruct b end
    | apply ok_bind; [|intros ?] ].

Lemma ok_person_slot (people : DataFrame num) (idx : nat) :
  ok (person_slot Person_new get_name get_image people idx).
Proof.
  unfold person_slot. apply ok_bind; [apply ok_try|]. intros id s.
  apply keeps_bind; [apply keeps_refl|].
  intros cached s1 [= <- <-].
  apply keeps_bind_ok.
  - case_bool_decide as Hcached; simpl.
    + apply keeps_refl.
    + apply keeps_construct. by apply eq_None_not_Some.
  - intros _. cbv beta.
    unfold st_columns, st_markdown. ok_steps.
Qed.

Lemma ok_create_persons (df_persons : DataFrame num) :
  ok (create_persons Person_new get_name get_image df_persons).
Proof.
  unfold create_persons. apply ok_for. intros i.
  apply ok_bind; [apply ok_emit|]. intros _.
  apply ok_for. intros j.
  destruct (_ <? _)%nat; [apply ok_person_slot | apply ok_ret].
Qed.

Lemma bind_Done {A B} (m : St A) (k : A → St B) s (a : A) s1 :
  m s = (Done a, s1) → bind m k s = k a s1.
Proof. unfold bind. by intros ->. Qed.

(** A person whose key has an entry is shown from that entry. *)
Lemma person_slot_cached (people : DataFrame num) (idx : nat)
    (id : cell num) (person : Person) s :
  iloc people idx "id" = Some id →
  session_state s !! person_key id = Some (ObjPerson person) →
  constructed (person_slot Person_new get_name get_image people idx s).2
  = constructed s
  ∧ Button (get_name person)
    ∈ page (person_slot Person_new get_name get_image people idx s).2.
Proof.
  intros Hid Hcached. unfold person_slot.
  rewrite (bind_Done _ _ s id s) by (by rewrite Hid).
  rewrite (bind_Done _ _ s true s)
    by (unfold session_has; by rewrite bool_decide_eq_true_2 by eauto).
  rewrite (bind_Done _ _ s () s) by done.
  rewrite (bind_Done _ _ s (ObjPerson person) s)
    by (unfold session_get; by rewrite Hcached).
  rewrite (bind_Done _ _ s person s) by done.
  unfold bind, st_button, bind. simpl.
  destruct (iloc people idx "number") as [number|]; simpl.
  - destruct (bool_decide _); simpl; (split; [done|]); set_solver.
  - split; [done|]. set_solver.
Qed.

(** A render keeps the log free of repetitions. *)
Lemma keeps_coherent s s' :
  keeps s s' → cache_coherent s → cache_coherent s'.
Proof.
  intros [Hs (new & Hc & Hnd & Hnew)] [Hold Hcached]. split.
  - rewrite Hc. apply NoDup_app. split; [done|]. split; [|done].
    intros id [v Hv]%Hcached [Hfree _]%Hnew. congruence.
  - intros id. rewrite Hc. intros [Hin|Hin]%elem_of_app.
    + destruct (Hcached _ Hin) as [v Hv]. exists v.
      by apply Hs; [apply person_key_ne|].
    + destruct (Hnew _ Hin) as [_ H']. by eexists.
Qed.

Lemma render_coherent s (run : DataFrame num * gset string) :
  cache_coherent s →
  cache_coherent (render Person_new get_name get_image s run).
Proof.
  intros Hs. unfold render.
  eapply keeps_coherent; [apply ok_create_persons|]. exact Hs.
Qed.

Lemma visit_coherent s (runs : list (DataFrame num * gset string)) :
  cache_coherent s →
  cache_coherent (visit Person_new get_name get_image s runs).
Proof.
  unfold visit. revert s.
  induction runs as [|run runs IH]; intros s Hs; simpl; [done|].
  by apply IH, render_coherent.
Qed.
End PersonCache.

Section PersonGrid.
Context {num : Type} `{!Number num} {Person : Type}.
Context (Person_new : cell num → Person).
Context (get_name get_image : Person → string).

(** C8: a render of the person grid never changes an entry that is
    already cached under a person key; every [Person] it constructs is
    for an identifier that had no entry under its key, is constructed
    once, and becomes that entry; a person whose key has an entry is
    shown from that entry without any construction; and over the
    renders of a visit that starts with no person constructed, no
    identifier is constructed twice. *)
Theorem person_cache (df_persons : DataFrame num) (s : App num Person)
    (runs : list (DataFrame num * gset string)) :
  let s' := (create_persons Person_new get_name get_image df_persons s).2 in
  (∀ id v,
     session_state s !! person_key id = Some v →
     session_state s' !! person_key id = Some v)
  ∧ (∃ new,
       constructed s' = constructed s ++ new
       ∧ NoDup new
       ∧ ∀ id, id ∈ new →
           session_state s !! person_key id = None
           ∧ session_state s' !! person_key id
             = Some (ObjPerson (Person_new id)))
  ∧ (∀ people idx id person,
       iloc people idx "id" = Some id →
       session_state s !! person_key id = Some (ObjPerson person) →
       let s1 := (person_slot Person_new get_name get_image
                    people idx s).2 in
       constructed s1 = constructed s
       ∧ Button (get_name person) ∈ page s1)
  ∧ (constructed s = [] →
     NoDup (constructed (visit Person_new get_name get_image s runs))).
Proof.
  intros s'.
  destruct (ok_create_persons Person_new get_name get_image df_persons s)
    as [Hkeep Hnew].
  split; [|split; [exact Hnew|split]].
  - intros id v. apply Hkeep, person_key_ne.
  - intros people idx id person Hid Hcached s1.
    by apply (person_slot_cached Person_new get_name get_image _ _ id).
  - intros Hfresh.
    apply (visit_coherent Person_new get_name get_image s runs).
    split; rewrite Hfresh; [constructor|]. by intros id ?%elem_of_nil.
Qed.
End PersonGrid.

(** Two renders of the directors' grid in a fresh visit, persons being
    known by their printed identifier. *)
Lemma person_cache_witness :
  NoDup (constructed
           (visit (Person := string) cell_str id (λ _, "portrait.jpg")
              (new_visit string) [(some_persons, ∅); (some_persons, ∅)])).
Proof.
  apply (person_cache (Person := string) cell_str id (λ _, "portrait.jpg")
           some_persons (new_visit string)).
  reflexivity.
Defined.

(** * Further properties *)

Lemma filter_none {A} (P : A → Prop) `{!∀ x, Decision (P x)} (l : list A) :
  Forall (λ x, ¬ P x) l → filter P l = [].
Proof.
  induction 1 as [|x l Hx _ IH]; [done|].
  rewrite filter_cons, IH. by case_decide.
Qed.

(** ** What the groups of a table are

    Keys that can be compared lawfully (equality decides identity, the
    order is strict, transitive and total on them) are grouped as one
    expects: one group per distinct key, in ascending order, each of the
    size of its key's multiplicity. *)

Section GroupSizesLawful.
Context {K : Type} (eqb ltb : K → K → bool) (dom : K → Prop).
Hypothesis eqb_eq : ∀ a b, dom a → dom b → eqb a b = true → a = b.
Hypothesis eqb_refl : ∀ a, dom a → eqb a a = true.
Hypothesis ltb_irrefl : ∀ a, dom a → ltb a a = false.
Hypothesis ltb_trans :
  ∀ a b c, dom a → dom b → dom c →
           ltb a b = true → ltb b c = true → ltb a c = true.
Hypothesis ltb_total :
  ∀ a b, dom a → dom b → eqb a b = false → ltb a b = false → ltb b a = true.

Local Abbreviation ascending :=
  (StronglySorted (λ g g' : K * nat, ltb g.1 g'.1 = true)).

(** The total size of the groups whose key equals [k]. *)
Local Abbreviation size_of k groups :=
  (sum_list (filter (λ g : K * nat, eqb k g.1 = true) groups).*2).

Lemma count_key_keys (k : K) (groups : list (K * nat)) (g : K * nat) :
  g ∈ count_key eqb ltb k groups → g.1 = k ∨ g.1 ∈ groups.*1.
Proof.
  induction groups as [|[k' n] groups IH]; csimpl.
  - intros ->%list_elem_of_singleton. by left.
  - destruct (eqb k k'); [|destruct (ltb k k')].
    + intros [->|Hin]%elem_of_cons; right.
      * by left.
      * right. by apply (list_elem_of_fmap_2 fst) in Hin.
    + intros [->|Hin]%elem_of_cons; [by left|right].
      by apply (list_elem_of_fmap_2 fst) in Hin.
    + intros [->|Hin]%elem_of_cons.
      * right. by left.
      * destruct (IH Hin) as [?|?]; [by left | right; by right].
Qed.

Lemma count_key_dom (k : K) (groups : list (K * nat)) :
  dom k → Forall dom groups.*1 → Forall dom (count_key eqb ltb k groups).*1.
Proof.
  intros Hk Hgroups. apply Forall_forall. intros k0 Hk0.
  apply list_elem_of_fmap in Hk0 as (g & -> & Hg).
  destruct (count_key_keys _ _ _ Hg) as [->|Hin]; [done|].
  by eapply Forall_forall in Hgroups.
Qed.

Lemma count_key_ascending (k : K) (groups : list (K * nat)) :
  dom k → Forall dom groups.*1 → ascending groups →
  ascending (count_key eqb ltb k groups).
Proof.
  intros Hk. induction groups as [|[k' n] groups IH]; csimpl.
  - intros _ _. by repeat constructor.
  - intros [Hk' Hdom]%Forall_cons [Hsorted Hall]%StronglySorted_inv.
    destruct (eqb k k') eqn:Heq; [|destruct (ltb k k') eqn:Hlt].
    + by constructor.
    + constructor; [by constructor|].
      constructor; [done|].
      rewrite Forall_forall in Hall |- *. intros g Hg.
      apply (ltb_trans k k' g.1); [done..| |done|by apply Hall].
      rewrite Forall_forall in Hdom. apply Hdom.
      by apply (list_elem_of_fmap_2 fst) in Hg.
    + constructor; [by apply IH|].
      apply Forall_forall. intros g Hg.
      destruct (count_key_keys _ _ _ Hg) as [->|Hin]; simpl.
      * by apply ltb_total.
      * apply list_elem_of_fmap in Hin as (g' & -> & Hg').
        rewrite Forall_forall in Hall. by apply Hall.
Qed.

Lemma size_of_count_key (k0 k : K) (groups : list (K * nat)) :
  dom k0 → dom k → Forall dom groups.*1 →
  size_of k0 (count_key eqb ltb k groups)
  = size_of k0 groups + (if eqb k0 k then 1 else 0).
Proof.
  intros Hk0 Hk. induction groups as [|[k' n] groups IH]; csimpl.
  - intros _. rewrite filter_cons, filter_nil. simpl.
    destruct (eqb k0 k); by case_decide.
  - intros [Hk' Hdom]%Forall_cons.
    destruct (eqb k k') eqn:Heq; [|destruct (ltb k k') eqn:Hlt].
    + apply eqb_eq in Heq as ->; [|done..].
      rewrite !filter_cons. simpl.
      destruct (eqb k0 k'); case_decide; try done; csimpl; lia.
    + rewrite !(filter_cons _ (k, _)). simpl.
      destruct (eqb k0 k); case_decide; try done; csimpl; lia.
    + rewrite !(filter_cons _ (k', _)). simpl.
      case_decide; csimpl; rewrite IH by done; lia.
Qed.

Lemma size_of_foldl (k0 : K) (keys : list K) (groups : list (K * nat)) :
  dom k0 → Forall dom keys → Forall dom groups.*1 →
  size_of k0 (foldl (λ groups k, count_key eqb ltb k groups) groups keys)
  = size_of k0 groups + length (filter (λ k, eqb k0 k = true) keys).
Proof.
  intros Hk0 Hkeys. revert groups.
  induction Hkeys as [|k keys Hk _ IH]; intros groups Hdom; csimpl.
  - lia.
  - rewrite IH by by apply count_key_dom.
    rewrite size_of_count_key, filter_cons by done.
    destruct (eqb k0 k); case_decide; try done; simpl; lia.
Qed.

Lemma foldl_count_key_inv (keys : list K) (groups : list (K * nat)) :
  Forall dom keys → Forall dom groups.*1 → ascending groups →
  let groups' := foldl (λ groups k, count_key eqb ltb k groups) groups keys in
  ascending groups' ∧ Forall dom groups'.*1
  ∧ ∀ g, g ∈ groups' → g.1 ∈ keys ∨ g.1 ∈ groups.*1.
Proof.
  intros Hkeys. revert groups.
  induction Hkeys as [|k keys Hk _ IH]; intros groups Hdom Hasc; csimpl.
  - split; [done|]. split; [done|]. intros g Hg. right.
    by apply (list_elem_of_fmap_2 fst) in Hg.
  - destruct (IH (count_key eqb ltb k groups)) as (Ha & Hd & Hin);
      [by apply count_key_dom | by apply count_key_ascending|].
    split; [done|]. split; [done|]. intros g Hg.
    destruct (Hin g Hg) as [?|Hc]; [left; by right|].
    apply list_elem_of_fmap in Hc as (g' & -> & Hg').
    destruct (count_key_keys _ _ _ Hg') as [->|?]; [left; by left|by right].
Qed.

(** In an ascending table the group of a key is the only one that
    matches it. *)
Lemma ascending_size_of (groups : list (K * nat)) (k : K) (n : nat) :
  Forall dom groups.*1 → ascending groups → (k, n) ∈ groups →
  size_of k groups = n.
Proof.
  induction groups as [|[k' n'] groups IH]; [by intros _ _ ?%elem_of_nil|].
  csimpl. intros [Hk' Hdom]%Forall_cons [Hsorted Hall]%StronglySorted_inv.
  rewrite Forall_forall in Hall. rewrite Forall_forall in Hdom.
  intros [[= -> ->]|Hin]%elem_of_cons.
  - rewrite filter_cons. simpl. rewrite eqb_refl by done.
    case_decide; [|done]. csimpl.
    rewrite filter_none; [simpl; lia|].
    apply Forall_forall. intros g Hg Heq.
    assert (dom g.1) by by apply Hdom, (list_elem_of_fmap_2 fst).
    apply eqb_eq in Heq; [|done..]. specialize (Hall g Hg). simpl in Hall.
    rewrite <- Heq, ltb_irrefl in Hall; done.
  - assert (dom k) by (apply Hdom; by apply (list_elem_of_fmap_2 fst) in Hin).
    rewrite filter_cons. simpl.
    case_decide as Heq; [|apply IH; [by apply Forall_forall|done..]].
    apply eqb_eq in Heq; [|done..]. subst k'.
    specialize (Hall _ Hin). simpl in Hall.
    rewrite ltb_irrefl in Hall; done.
Qed.

(** The table of group sizes: ascending keys, each with the number of
    rows that carry it, and a group for every key that occurs. *)
Lemma group_sizes_spec (keys : list K) :
  Forall dom keys →
  ascending (group_sizes eqb ltb keys)
  ∧ (∀ k n, (k, n) ∈ group_sizes eqb ltb keys →
       k ∈ keys ∧ n = length (filter (λ k', eqb k k' = true) keys))
  ∧ (∀ k, k ∈ keys → k ∈ (group_sizes eqb ltb keys).*1).
Proof.
  intros Hkeys. unfold group_sizes.
  destruct (foldl_count_key_inv keys [] Hkeys) as (Hasc & Hdom & Hin);
    [constructor..|].
  split; [done|]. split.
  - intros k n Hkn.
    assert (k ∈ keys) as Hk.
    { destruct (Hin _ Hkn) as [?|?%elem_of_nil]; done. }
    split; [done|].
    rewrite <- (ascending_size_of _ _ _ Hdom Hasc Hkn).
    rewrite size_of_foldl; [done| |done|constructor].
    by eapply Forall_forall in Hkeys.
  - intros k Hk.
    assert (dom k) as Hdk by by eapply Forall_forall in Hkeys.
    pose proof (size_of_foldl k keys [] Hdk Hkeys ltac:(constructor)) as Hsize.
    simpl in Hsize.
    destruct (filter (λ g : K * nat, eqb k g.1 = true)
                (foldl (λ groups k, count_key eqb ltb k groups) [] keys))
      as [|g groups] eqn:Hfilter.
    + exfalso. simpl in Hsize. symmetry in Hsize.
      apply length_zero_iff_nil in Hsize as Hlen.
      by apply (filter_nil_not_elem_of _ _ k) in Hlen; [|apply eqb_refl].
    + assert (g ∈ filter (λ g : K * nat, eqb k g.1 = true)
                (foldl (λ groups k, count_key eqb ltb k groups) [] keys))
        as [Heq Hg]%list_elem_of_filter by (rewrite Hfilter; left).
      apply eqb_eq in Heq; [|done|].
      * rewrite Heq. by apply (list_elem_of_fmap_2 fst).
      * rewrite Forall_forall in Hdom.
        by apply Hdom, (list_elem_of_fmap_2 fst).
Qed.
End GroupSizesLawful.

(** ** The groups of a numeric column *)

Lemma cell_eqb_sym (a b : cell Z) : cell_eqb a b = cell_eqb b a.
Proof.
  destruct a, b; simpl; try done.
  - apply Z.eqb_sym.
  - apply String.eqb_sym.
Qed.

Lemma cell_eqb_notna {num} `{!Number num} (a b : cell num) :
  cell_eqb a b = true → notna a = true.
Proof. by destruct a. Qed.

Lemma numeric_notna_Num (c : cell Z) :
  numeric c = true → notna c = true → ∃ z, c = Num z.
Proof. destruct c; naive_solver. Qed.

(** The groups of a numeric column of integers. *)
Lemma groupby_size_numeric (df_films : DataFrame Z) (value : string)
    (keys : list (cell Z)) (df_count : list (cell Z * nat)) :
  col df_films value = Some keys →
  Forall (λ c, numeric c = true) keys →
  groupby_size df_films value = Some df_count →
  StronglySorted (λ g g' : cell Z * nat, cell_ltb g.1 g'.1 = true) df_count
  ∧ (∀ k n, (k, n) ∈ df_count →
       k ∈ keys ∧ notna k = true ∧ 0 < n
       ∧ n = length (filter (λ c, cell_eqb c k = true) keys))
  ∧ (∀ c, c ∈ keys → notna c = true → c ∈ df_count.*1).
Proof.
  intros Hkeys Hnum. unfold groupby_size. case_decide; [done|].
  rewrite Hkeys. simpl. intros [= <-].
  set (present := filter (λ k, notna k = true) keys).
  assert (Forall (λ c : cell Z, ∃ z, c = Num z) present) as Hdom.
  { apply Forall_forall. intros c [Hc Hin]%list_elem_of_filter.
    apply numeric_notna_Num; [|done]. by eapply Forall_forall in Hnum. }
  destruct (group_sizes_spec cell_eqb cell_ltb (λ c : cell Z, ∃ z, c = Num z))
    with (keys := present) as (Hasc & Hsize & Hall); try done.
  - intros a b [x ->] [y ->] Heq. simpl in Heq. f_equal. by apply Z.eqb_eq.
  - intros a [x ->]. simpl. apply Z.eqb_refl.
  - intros a [x ->]. simpl. apply Z.ltb_irrefl.
  - intros a b c [x ->] [y ->] [z ->]. simpl.
    rewrite !Z.ltb_lt. lia.
  - intros a b [x ->] [y ->]. simpl.
    rewrite Z.eqb_neq, Z.ltb_ge, Z.ltb_lt. lia.
  - split; [done|]. split.
    + intros k n Hkn. destruct (Hsize k n Hkn) as [Hk ->].
      apply list_elem_of_filter in Hk as [Hna Hk].
      split; [done|]. split; [done|].
      assert (filter (λ k', cell_eqb k k' = true) present
              = filter (λ c, cell_eqb c k = true) keys) as ->.
      { unfold present. rewrite list_filter_filter.
        apply list_filter_iff. intros c. rewrite (cell_eqb_sym k c).
        split; [by intros [? _]|]. intros Hc. split; [done|].
        by eapply cell_eqb_notna. }
      split; [|done].
      assert (k ∈ filter (λ c, cell_eqb c k = true) keys) as Hin.
      { apply list_elem_of_filter. split; [|done].
        eapply Forall_forall in Hnum; [|done].
        destruct (numeric_notna_Num k Hnum Hna) as [z ->].
        simpl. apply Z.eqb_refl. }
      apply list_elem_of_split in Hin as (l1 & l2 & ->).
      rewrite length_app. simpl. lia.
    + intros c Hc Hna. apply Hall. by apply list_elem_of_filter.
Qed.

(** X1: in the histogram of a numeric column of integers, the groups
    come in strictly ascending key order, every group is the group of a
    value that occurs in the column, its size is the positive number of
    rows that hold that value, and every value that occurs has its
    group. *)
Theorem groupby_size_groups (df_films : DataFrame Z) (value : string)
    (keys : list (cell Z)) (df_count : list (cell Z * nat)) :
  col df_films value = Some keys →
  Forall (λ c, numeric c = true) keys →
  groupby_size df_films value = Some df_count →
  StronglySorted (λ g g' : cell Z * nat, cell_ltb g.1 g'.1 = true) df_count
  ∧ (∀ k n, (k, n) ∈ df_count →
       k ∈ keys ∧ notna k = true ∧ 0 < n
       ∧ n = length (filter (λ c, cell_eqb c k = true) keys))
  ∧ (∀ c, c ∈ keys → notna c = true → c ∈ df_count.*1).
Proof. apply groupby_size_numeric. Qed.

Lemma groupby_size_groups_witness :
  ∃ df_count,
    groupby_size three_films "press rating" = Some df_count
    ∧ ∀ k n, (k, n) ∈ df_count →
        n = length (filter (λ c, cell_eqb c k = true)
                      [Num 4%Z; NaN; Num 3%Z]).
Proof.
  destruct (groupby_size three_films "press rating") as [df_count|] eqn:Hc;
    [|vm_compute in Hc; discriminate Hc].
  exists df_count. split; [reflexivity|].
  intros k n Hkn.
  destruct (groupby_size_groups three_films "press rating"
              [Num 4%Z; NaN; Num 3%Z] df_count) as (_ & Hsize & _).
  - reflexivity.
  - by repeat constructor.
  - exact Hc.
  - by destruct (Hsize k n Hkn) as (_ & _ & _ & ->).
Defined.

(** ** The bars of the numeric histogram *)

Lemma filter_fmap {A B} (f : A → B) (P : B → Prop) `{!∀ y, Decision (P y)}
    (l : list A) :
  filter P (f <$> l) = f <$> filter (λ x, P (f x)) l.
Proof.
  induction l as [|x l IH]; [done|].
  csimpl. rewrite !filter_cons, IH. by case_decide.
Qed.

(** A mask computed from one view of the rows, applied to another. *)
Lemma boolean_index_fmap2 {A B} (f : A → B) (p : A → bool) (rows : list A) :
  boolean_index (f <$> rows) (p <$> rows)
  = f <$> filter (λ r, p r = true) rows.
Proof.
  induction rows as [|r rows IH]; [done|].
  csimpl. rewrite filter_cons, IH.
  destruct (p r); by case_decide.
Qed.

Lemma sum_list_positive (l : list nat) :
  Forall (λ n, 0 < n) l → length l ≤ sum_list l.
Proof. induction 1; simpl; lia. Qed.

(** Among ascending numeric keys only the group of [k] matches [k]. *)
Lemma ascending_filter_singleton (groups : list (cell Z * nat))
    (k : cell Z) (n : nat) :
  Forall (λ g, ∃ z : Z, g.1 = Num z) groups →
  StronglySorted (λ g g' : cell Z * nat, cell_ltb g.1 g'.1 = true) groups →
  (k, n) ∈ groups →
  filter (λ g, cell_eqb g.1 k = true) groups = [(k, n)].
Proof.
  induction groups as [|[k' n'] groups IH]; [by intros _ _ ?%elem_of_nil|].
  intros [[z' Hz'] Hnum]%Forall_cons [Hsorted Hall]%StronglySorted_inv.
  simpl in Hz'. subst k'. rewrite Forall_forall in Hall.
  intros [[= -> ->]|Hin]%elem_of_cons; rewrite filter_cons; simpl.
  - rewrite Z.eqb_refl. case_decide; [|done]. f_equal.
    apply filter_none, Forall_forall. intros [k0 n0] Hg Heq.
    specialize (Hall _ Hg). simpl in Hall, Heq.
    destruct k0 as [|z0|]; try done.
    apply Z.eqb_eq in Heq as ->. by rewrite Z.ltb_irrefl in Hall.
  - case_decide as Heq; [|by apply IH].
    specialize (Hall _ Hin). simpl in Hall.
    destruct k as [|z|]; try done.
    apply Z.eqb_eq in Heq as ->. by rewrite Z.ltb_irrefl in Hall.
Qed.

Lemma groupby_size_Some {num} `{!Number num} (df : DataFrame num)
    (value : string) (df_count : list (cell num * nat)) :
  groupby_size df value = Some df_count →
  ∃ keys,
    col df value = Some keys
    ∧ df_count
      = group_sizes cell_eqb cell_ltb (filter (λ k, notna k = true) keys)
    ∧ value ≠ "number".
Proof.
  unfold groupby_size. case_decide; [done|].
  destruct (col df value) as [keys|]; [|done].
  simpl. intros [= <-]. by exists keys.
Qed.

Section HistBars.
Implicit Types df_films : DataFrame Z.

(** The rows of a value, [df_films[df_films[value] == k]]. *)
Local Abbreviation rows_of df_films value k :=
  (filter (λ r, cell_eqb (row_at r value) k = true) (records df_films)).

Lemma select_eq_rows df_films (value : string) (k : cell Z) :
  boolean_index (records df_films)
    ((λ c, cell_eqb c k) <$> ((λ r, row_at r value) <$> records df_films))
  = rows_of df_films value k.
Proof. by rewrite <- list_fmap_compose, boolean_index_fmap. Qed.

(** X3: in the numeric histogram of a column of integers that has no
    missing value, whose name is ASCII and is not "hover_text", the
    three series of the figure are aligned and there are at most as many
    bars as rows; the bar of a value [k] has the height of the number of
    rows that hold [k], which is positive, and its hover text shows that
    same number followed by the titles of the first five of those
    rows. *)
Theorem hist_numbers_bars df_films (value : string) (mean : bool)
    (hist_title : option string) (keys : list (cell Z)) (fig : Bar Z) :
  Py.isascii value = true →
  value ≠ "hover_text" →
  col df_films value = Some keys →
  Forall (λ c, ∃ z : Z, c = Num z) keys →
  create_hist_numbers df_films value mean hist_title = Some fig →
  length (bar_y fig) = length (bar_x fig)
  ∧ length (bar_hover_name fig) = length (bar_x fig)
  ∧ length (bar_x fig) ≤ len df_films
  ∧ ∀ i k, bar_x fig !! i = Some k →
      0 < length (rows_of df_films value k)
      ∧ bar_y fig !! i
        = Some (Num (Z.of_nat (length (rows_of df_films value k))))
      ∧ ∃ examples,
          mapM cell_as_str
            (take 5 ((λ r, row_at r "title") <$> rows_of df_films value k))
          = Some examples
          ∧ bar_hover_name fig !! i
            = Some (Py.title value +:+ ": " +:+ cell_str k
                    +:+ "<br>Films: "
                    +:+ pretty (length (rows_of df_films value k))
                    +:+ "<br>" +:+ Py.join "<br>" examples).
Proof.
  intros _ Hname Hkeys Hints. unfold create_hist_numbers.
  assert (Forall (λ c : cell Z, numeric c = true) keys) as Hnum.
  { eapply Forall_impl; [exact Hints|]. by intros c [z ->]. }
  destruct (groupby_size df_films value) as [df_count|] eqn:Hcount; [|done].
  simpl. destruct (mapM _ df_count) as [hover_text|] eqn:Hhover; [|done].
  simpl. destruct (if mean then _ else _) as [vline|]; [|done].
  simpl. intros [= <-]. simpl.
  destruct (decide (value = "hover_text")) as [?|_]; [done|].
  destruct (groupby_size_numeric _ _ _ _ Hkeys Hnum Hcount)
    as (Hasc & Hsize & _).
  assert (∀ k n, (k, n) ∈ df_count →
            n = length (rows_of df_films value k)) as Hrows.
  { intros k n Hkn. destruct (Hsize k n Hkn) as (_ & _ & _ & ->).
    apply col_Some in Hkeys as [_ ->].
    by rewrite filter_fmap, length_fmap. }
  assert (Forall (λ g : cell Z * nat, ∃ z : Z, g.1 = Num z) df_count) as Hdom.
  { apply Forall_forall. intros [k n] Hkn.
    destruct (Hsize k n Hkn) as (Hk & Hna & _).
    apply numeric_notna_Num; [|done]. by eapply Forall_forall in Hnum. }
  rewrite !length_fmap. split; [done|].
  split; [symmetry; by eapply length_mapM|].
  split.
  { transitivity (sum_list df_count.*2).
    - rewrite <- (length_fmap snd). apply sum_list_positive.
      apply Forall_forall. intros n Hn.
      apply list_elem_of_fmap in Hn as ([k n'] & -> & Hkn).
      by destruct (Hsize k n' Hkn) as (_ & _ & ? & _).
    - apply groupby_size_Some in Hcount as (keys' & Hkeys' & -> & _).
      rewrite group_sizes_sum, <- (col_length _ _ _ Hkeys').
      apply length_filter. }
  intros i k Hi.
  apply list_lookup_fmap_Some in Hi as ([k' n] & -> & Hg). simpl.
  assert ((k', n) ∈ df_count) as Hkn by by eapply list_elem_of_lookup_2.
  pose proof (Hrows _ _ Hkn) as Hn.
  destruct (Hsize _ _ Hkn) as (_ & _ & Hpos & _).
  split; [lia|]. split.
  { rewrite list_lookup_fmap, Hg. simpl. unfold count_cell. by rewrite Hn. }
  apply mapM_Some_1 in Hhover.
  destruct (Forall2_lookup_l _ _ _ _ _ Hhover Hg) as (text & Htext & Hhov).
  simpl in Hhov. rewrite Htext. clear Htext.
  unfold hist_numbers_hover in Hhov.
  rewrite boolean_index_fmap2 in Hhov.
  rewrite (ascending_filter_singleton _ _ _ Hdom Hasc Hkn) in Hhov.
  simpl in Hhov.
  unfold hist_numbers_examples in Hhov. rewrite Hkeys in Hhov.
  simpl in Hhov.
  destruct (col (select df_films _) "title") as [titles|] eqn:Htitles;
    [|done].
  apply col_Some in Htitles as [_ ->]. simpl in Hhov.
  apply col_Some in Hkeys as [_ ->].
  rewrite select_eq_rows in Hhov.
  destruct (mapM cell_as_str _) as [examples|]; [|done].
  simpl in Hhov. injection Hhov as <-.
  exists examples. by rewrite Hn.
Qed.
End HistBars.

Lemma hist_numbers_bars_witness :
  ∃ fig,
    create_hist_numbers seven_films "duration" false None = Some fig
    ∧ length (bar_x fig) ≤ len seven_films
    ∧ bar_y fig !! 0%nat = Some (Num 7%Z).
Proof.
  destruct (create_hist_numbers seven_films "duration" false None)
    as [fig|] eqn:Hfig; [|vm_compute in Hfig; discriminate Hfig].
  exists fig. split; [reflexivity|].
  destruct (hist_numbers_bars seven_films "duration" false None
              (replicate 7 (Num 100%Z)) fig) as (_ & _ & Hlen & Hbars).
  - reflexivity.
  - discriminate.
  - reflexivity.
  - repeat constructor; by exists 100%Z.
  - exact Hfig.
  - split; [exact Hlen|].
    destruct (Hbars 0%nat (Num 100%Z)) as (_ & Hy & _).
    + vm_compute in Hfig. by injection Hfig as <-.
    + exact Hy.
Defined.

(** X2: on a films table whose titles are strings, the numeric
    histogram of a numeric column of integers is built exactly when the
    column exists and is not called "number"; a missing column and the
    name "number" are its only failures. *)
Theorem create_hist_numbers_defined (df_films : DataFrame Z)
    (value : string) (mean : bool) (hist_title : option string) :
  "title" ∈ columns df_films →
  Forall (λ r, is_Some (cell_as_str (row_at r "title"))) (records df_films) →
  Forall (λ r, numeric (row_at r value) = true) (records df_films) →
  is_Some (create_hist_numbers df_films value mean hist_title)
  ↔ value ∈ columns df_films ∧ value ≠ "number".
Proof.
  intros Htitle Hstr Hnum. split.
  - intros [fig Hfig]. unfold create_hist_numbers in Hfig.
    destruct (groupby_size df_films value) as [df_count|] eqn:Hcount;
      [|done].
    apply groupby_size_Some in Hcount as (keys & Hkeys & _ & Hname).
    by apply col_Some in Hkeys as [? _].
  - intros [Hvalue Hname].
    assert (col df_films value
            = Some ((λ r, row_at r value) <$> records df_films)) as Hkeys
      by (unfold col; by case_decide).
    assert (Forall (λ c : cell Z, numeric c = true)
              ((λ r, row_at r value) <$> records df_films)) as Hnumeric
      by by apply Forall_fmap.
    unfold create_hist_numbers.
    destruct (groupby_size df_films value) as [df_count|] eqn:Hcount.
    2:{ unfold groupby_size in Hcount. rewrite Hkeys in Hcount.
        by case_decide. }
    destruct (groupby_size_numeric _ _ _ _ Hkeys Hnumeric Hcount)
      as (Hasc & Hsize & _).
    simpl.
    destruct (mapM _ df_count) as [hover_text|] eqn:Hhover.
    { simpl. rewrite Hkeys. destruct mean; by eexists. }
    exfalso. apply eq_None_not_Some in Hhover. apply Hhover.
    apply mapM_is_Some_2, Forall_forall. intros [k n] Hkn. simpl.
    assert (Forall (λ g : cell Z * nat, ∃ z : Z, g.1 = Num z) df_count)
      as Hdom.
    { apply Forall_forall. intros [k0 n0] Hkn0.
      destruct (Hsize k0 n0 Hkn0) as (Hk & Hna & _).
      apply numeric_notna_Num; [|done]. by eapply Forall_forall in Hnumeric. }
    unfold hist_numbers_hover.
    rewrite boolean_index_fmap2.
    rewrite (ascending_filter_singleton _ _ _ Hdom Hasc Hkn). simpl.
    unfold hist_numbers_examples. rewrite Hkeys. simpl.
    unfold col at 1. simpl. case_decide; [|done]. simpl.
    rewrite (select_eq_rows df_films value k).
    destruct (mapM cell_as_str _) as [examples|] eqn:Hex; [by eexists|].
    exfalso. apply eq_None_not_Some in Hex. apply Hex.
    apply mapM_is_Some_2, Forall_take, Forall_fmap.
    apply Forall_forall. intros r [_ Hr]%list_elem_of_filter.
    by eapply Forall_forall in Hstr.
Qed.

Lemma create_hist_numbers_defined_witness :
  is_Some (create_hist_numbers three_films "press rating" true None).
Proof.
  apply create_hist_numbers_defined.
  - vm_compute. set_solver.
  - repeat constructor; by eexists.
  - by repeat constructor.
  - split; [vm_compute; set_solver | done].
Defined.

(** ** Substrings and suffixes *)

Lemma append_cons (c : ascii) (a b : string) :
  String c a +:+ b = String c (a +:+ b).
Proof. reflexivity. Qed.

Lemma append_assoc (a b c : string) : (a +:+ b) +:+ c = a +:+ (b +:+ c).
Proof.
  induction a as [|x a IH]; [done|].
  by rewrite !append_cons, IH.
Qed.

Lemma length_append (a b : string) :
  String.length (a +:+ b) = String.length a + String.length b.
Proof.
  induction a as [|x a IH]; [done|].
  rewrite append_cons. simpl. by rewrite IH.
Qed.

Lemma prefix_cons (c d : ascii) (sub s : string) :
  String.prefix (String c sub) (String d s)
  = if ascii_dec c d then String.prefix sub s else false.
Proof. reflexivity. Qed.

Lemma prefix_spec (sub s : string) :
  String.prefix sub s = true ↔ ∃ post, s = sub +:+ post.
Proof.
  revert s. induction sub as [|c sub IH]; intros s.
  - split; [intros _; by exists s | intros _; by destruct s].
  - destruct s as [|d s].
    + split; [done|]. intros [post Hpost]. by rewrite append_cons in Hpost.
    + rewrite prefix_cons. destruct (ascii_dec c d) as [->|Hne].
      * rewrite IH. split; intros [post Hpost]; exists post.
        -- by rewrite append_cons, Hpost.
        -- rewrite append_cons in Hpost. congruence.
      * split; [done|]. intros [post Hpost].
        rewrite append_cons in Hpost. congruence.
Qed.

Lemma contains_cons (sub : string) (c : ascii) (s : string) :
  Py.contains sub (String c s)
  = String.prefix sub (String c s) || Py.contains sub s.
Proof. reflexivity. Qed.

(** [sub in s] holds exactly when [s] is [pre + sub + post]. *)
Lemma contains_spec (sub s : string) :
  Py.contains sub s = true ↔ ∃ pre post, s = pre +:+ sub +:+ post.
Proof.
  split.
  - induction s as [|c s IH].
    + intros Hin. change (String.prefix sub "" || false = true) in Hin.
      rewrite orb_false_r, prefix_spec in Hin.
      destruct Hin as [post ->]. by exists "", post.
    + rewrite contains_cons. intros [Hpre|Hin]%orb_true_iff.
      * apply prefix_spec in Hpre as [post ->]. by exists "", post.
      * destruct (IH Hin) as (pre & post & ->).
        by exists (String c pre), post.
  - intros (pre & post & ->).
    induction pre as [|c pre IH].
    + change ("" +:+ sub +:+ post) with (sub +:+ post).
      assert (String.prefix sub (sub +:+ post) = true) as Hpre
        by (apply prefix_spec; by exists post).
      destruct (sub +:+ post) as [|c s].
      * change (String.prefix sub "" || false = true).
        by rewrite Hpre.
      * rewrite contains_cons. by rewrite Hpre.
    + rewrite append_cons, contains_cons, IH. apply orb_true_r.
Qed.

(** X4: a numeric histogram that is built has the rating layout (height
    400 and x-axis range [0, 5]) exactly when its column name has the
    form [pre + "rating" + post]; otherwise it has height 500 and no
    fixed range. *)
Theorem rating_layout_iff {num : Type} `{!Number num}
    (df_films : DataFrame num) (value : string) (mean : bool)
    (hist_title : option string) (fig : Bar num) :
  create_hist_numbers df_films value mean hist_title = Some fig →
  ((bar_height fig = 400%Z ∧ bar_xaxis_range fig = Some (0, 5)%Z)
   ↔ ∃ pre post, value = pre +:+ "rating" +:+ post)
  ∧ ((bar_height fig = 500%Z ∧ bar_xaxis_range fig = None)
     ↔ ¬ ∃ pre post, value = pre +:+ "rating" +:+ post).
Proof.
  unfold create_hist_numbers. intros Hfig.
  destruct (groupby_size _ _) as [df_count|]; [|done]. simpl in Hfig.
  destruct (mapM _ _) as [hover_text|]; [|done]. simpl in Hfig.
  destruct (if mean then _ else _) as [vline|]; [|done]. simpl in Hfig.
  injection Hfig as <-. simpl. rewrite <- contains_spec.
  destruct (Py.contains "rating" value); simpl; intuition congruence.
Qed.

Lemma rating_layout_iff_witness :
  ∃ fig,
    create_hist_numbers three_films "spectator rating" true None = Some fig
    ∧ bar_height fig = 400%Z ∧ bar_xaxis_range fig = Some (0, 5)%Z.
Proof.
  destruct (create_hist_numbers three_films "spectator rating" true None)
    as [fig|] eqn:Hfig; [|vm_compute in Hfig; discriminate Hfig].
  exists fig. split; [reflexivity|].
  apply (rating_layout_iff _ _ _ _ _ Hfig).
  by exists "spectator ", "".
Defined.

(** X5: the plural is undefined only for the empty word, and on the
    empty word the categorical histogram fails whatever the tables; a
    plural that is defined ends in "s" and is longer than the word. *)
Theorem plural_shape {num : Type} `{!Number num}
    (re_search : string → string → bool) (categories : string) :
  (plural categories = None ↔ categories = "")
  ∧ (∀ df_categories df_films id_,
       create_hist_categories re_search df_categories "" df_films id_ = None)
  ∧ (∀ p, plural categories = Some p →
       Py.last p = Some "s"%char
       ∧ String.length categories < String.length p).
Proof.
  split; [|split].
  - unfold plural. split.
    + destruct categories as [|c s]; [done|].
      destruct (last_is_Some (String c s)) as [x ->]; done.
    + by intros ->.
  - done.
  - intros p. unfold plural.
    destruct (Py.last categories) as [c|] eqn:Hlast; [|done].
    simpl. intros [= <-]. case_decide as Hy.
    + split; [apply last_snoc|].
      rewrite length_append. simpl. lia.
    + subst c. split.
      * change "ies" with ("ie" +:+ "s").
        rewrite <- append_assoc. apply last_snoc.
      * rewrite (last_Some_snoc _ _ Hlast) at 1.
        rewrite !length_append. simpl. lia.
Qed.

Lemma plural_shape_witness :
  Py.last "countries" = Some "s"%char
  ∧ String.length "country" < String.length "countries".
Proof.
  destruct (plural_shape (num := Z) (λ _ _, true) "country")
    as (_ & _ & Hshape).
  by apply Hshape.
Defined.

(** ** The categorical histogram and the map *)

Lemma fmap_zip_with_l' {A B C D} (f : A → B → C) (g : C → D) (h : A → D)
    (l : list A) (k : list B) :
  (∀ x y, g (f x y) = h x) → length l = length k →
  g <$> zip_with f l k = h <$> l.
Proof.
  intros Hgf. revert k.
  induction l as [|x l IH]; intros [|y k] Hlen; try done.
  csimpl. rewrite Hgf, IH; [done|]. simpl in Hlen. lia.
Qed.

Lemma fmap_zip_with_r' {A B C D} (f : A → B → C) (g : C → D) (h : B → D)
    (l : list A) (k : list B) :
  (∀ x y, g (f x y) = h y) → length l = length k →
  g <$> zip_with f l k = h <$> k.
Proof.
  intros Hgf. revert k.
  induction l as [|x l IH]; intros [|y k] Hlen; try done.
  csimpl. rewrite Hgf, IH; [done|]. simpl in Hlen. lia.
Qed.

Section Categories.
Context {num : Type} `{!Number num}.
Context (re_search : string → string → bool).

Lemma set_hover_text_columns (df : DataFrame num) (texts : list string) :
  "hover_text" ∈ columns (set_hover_text df texts)
  ∧ ∀ c, c ≠ "hover_text" →
      (c ∈ columns (set_hover_text df texts) ↔ c ∈ columns df).
Proof.
  unfold set_hover_text. simpl.
  destruct (decide ("hover_text" ∈ columns df)) as [Hin|Hnin].
  - by split.
  - split; [apply elem_of_app; right; by left|].
    intros c Hc. rewrite elem_of_app, list_elem_of_singleton. tauto.
Qed.

(** Adding the hover texts leaves every other column as it was. *)
Lemma set_hover_text_col (df : DataFrame num) (texts : list string)
    (c : string) :
  length texts = len df → c ≠ "hover_text" →
  col (set_hover_text df texts) c = col df c.
Proof.
  intros Hlen Hc.
  destruct (set_hover_text_columns df texts) as [_ Hcols].
  specialize (Hcols c Hc). unfold col.
  destruct (decide (c ∈ columns df)) as [Hin|Hnin].
  - rewrite decide_True by by apply Hcols. f_equal. simpl.
    apply fmap_zip_with_l'; [|done].
    intros r t. unfold row_at. by rewrite lookup_insert_ne.
  - rewrite decide_False; [done|]. by rewrite Hcols.
Qed.

Lemma set_hover_text_hover (df : DataFrame num) (texts : list string) :
  length texts = len df →
  col (set_hover_text df texts) "hover_text" = Some (Str <$> texts).
Proof.
  intros Hlen.
  destruct (set_hover_text_columns df texts) as [Hcols _]. unfold col.
  rewrite decide_True by done. f_equal. simpl.
  apply fmap_zip_with_r'; [|done].
  intros r t. unfold row_at. by rewrite lookup_insert_eq.
Qed.

Lemma create_hist_categories_Some (df_categories df_films : DataFrame num)
    (categories id_ : string) (df' : DataFrame num) (fig : Bar num) :
  create_hist_categories re_search df_categories categories df_films id_
  = Some (df', fig) →
  ∃ pl,
    plural categories = Some pl
    ∧ mapM (hist_categories_hover re_search categories pl id_
              df_categories df_films) (records df_categories)
      = Some (bar_hover_name fig)
    ∧ df' = set_hover_text df_categories (bar_hover_name fig)
    ∧ col df' categories = Some (bar_x fig)
    ∧ col df' "number" = Some (bar_y fig).
Proof.
  unfold create_hist_categories.
  destruct (plural categories) as [pl|]; [|done]. simpl.
  destruct (mapM _ _) as [hover_text|] eqn:Hhover; [|done]. simpl.
  destruct (col _ categories) as [x|] eqn:Hx; [|done]. simpl.
  destruct (col _ "number") as [y|] eqn:Hy; [|done]. simpl.
  intros [= <- <-]. simpl. by exists pl.
Qed.

(** X6: the categorical histogram leaves a category table that has rows
    with the same rows and one more piece of data, the column
    "hover_text", which holds the hover texts of the figure; every other
    column reads as before, and the three series of the figure have one
    entry per category row. *)
Theorem hist_categories_table (df_categories df_films : DataFrame num)
    (categories id_ : string) (df' : DataFrame num) (fig : Bar num) :
  records df_categories ≠ [] →
  create_hist_categories re_search df_categories categories df_films id_
  = Some (df', fig) →
  len df' = len df_categories
  ∧ "hover_text" ∈ columns df'
  ∧ col df' "hover_text" = Some (Str <$> bar_hover_name fig)
  ∧ (∀ c, c ≠ "hover_text" → col df' c = col df_categories c)
  ∧ length (bar_x fig) = len df_categories
  ∧ length (bar_y fig) = len df_categories
  ∧ length (bar_hover_name fig) = len df_categories.
Proof.
  intros _ (pl & _ & Hhover & -> & Hx & Hy)%create_hist_categories_Some.
  apply length_mapM in Hhover. symmetry in Hhover.
  pose proof (set_hover_text_hover df_categories _ Hhover) as Hcol.
  assert (len (set_hover_text df_categories (bar_hover_name fig))
          = len df_categories) as Hlen.
  { unfold len, set_hover_text. simpl.
    rewrite length_zip_with. unfold len in Hhover. lia. }
  split; [done|]. split; [by apply col_Some in Hcol as [? _]|].
  split; [done|].
  split; [intros c Hc; by apply set_hover_text_col|].
  apply col_length in Hx, Hy. by rewrite Hx, Hy, Hlen.
Qed.

(** X7: the map is built exactly when its table has the columns
    "country_en", "number" and "hover_text"; the table left by the
    categorical histogram of a table with rows has the last one, so on
    it the map is built as soon as the table had "country_en", and it
    shows the hover texts and the numbers of the histogram. *)
Theorem map_after_histogram (df_countries df_films : DataFrame num)
    (categories id_ : string) (df' : DataFrame num) (fig : Bar num) :
  (is_Some (create_map df_countries)
   ↔ "country_en" ∈ columns df_countries
     ∧ "number" ∈ columns df_countries
     ∧ "hover_text" ∈ columns df_countries)
  ∧ (records df_countries ≠ [] →
     create_hist_categories re_search df_countries categories df_films id_
     = Some (df', fig) →
     "country_en" ∈ columns df_countries →
     ∃ map,
       create_map df' = Some map
       ∧ geo_hover_name map = Str <$> bar_hover_name fig
       ∧ geo_color map = bar_y fig
       ∧ col df_countries "country_en" = Some (geo_locations map)).
Proof.
  split.
  - unfold create_map, col.
    destruct (decide ("country_en" ∈ columns df_countries));
      [|split; [by intros [? ?] | by intros (? & ? & ?)]].
    destruct (decide ("number" ∈ columns df_countries));
      [|split; [by intros [? ?] | by intros (? & ? & ?)]].
    destruct (decide ("hover_text" ∈ columns df_countries));
      [|split; [by intros [? ?] | by intros (? & ? & ?)]].
    split; [done|]. intros _. by eexists.
  - intros _ (pl & _ & Hhover & -> & Hx & Hy)%create_hist_categories_Some Hen.
    apply length_mapM in Hhover. symmetry in Hhover.
    unfold create_map.
    rewrite (set_hover_text_col _ _ "country_en" Hhover) by done.
    rewrite Hy, (set_hover_text_hover _ _ Hhover).
    unfold col at 1. rewrite decide_True by done. simpl.
    eexists. split; [done|]. simpl. repeat split.
    unfold col. by case_decide.
Qed.
End Categories.

Lemma hist_categories_table_witness :
  ∃ df' fig,
    create_hist_categories Py.contains countries_csv "country"
      films_by_country "country" = Some (df', fig)
    ∧ len df' = len countries_csv
    ∧ col df' "hover_text" = Some (Str <$> bar_hover_name fig).
Proof.
  destruct (create_hist_categories Py.contains countries_csv "country"
              films_by_country "country") as [[df' fig]|] eqn:Hfig;
    [|vm_compute in Hfig; discriminate Hfig].
  exists df', fig. split; [reflexivity|].
  destruct (hist_categories_table Py.contains countries_csv
              films_by_country "country" "country" df' fig)
    as (? & _ & ? & _); [done | exact Hfig |].
  by split.
Defined.

Lemma map_after_histogram_witness :
  ∃ df' fig map,
    create_hist_categories Py.contains countries_csv "country"
      films_by_country "country" = Some (df', fig)
    ∧ create_map df' = Some map
    ∧ geo_hover_name map = Str <$> bar_hover_name fig.
Proof.
  destruct (create_hist_categories Py.contains countries_csv "country"
              films_by_country "country") as [[df' fig]|] eqn:Hfig;
    [|vm_compute in Hfig; discriminate Hfig].
  destruct (map_after_histogram Py.contains countries_csv films_by_country
              "country" "country" df' fig) as [_ Hmap].
  destruct Hmap as (map & Hm & Hhover & _); [done | exact Hfig | |].
  - simpl. apply elem_of_cons. right. by left.
  - by exists df', fig, map.
Defined.

(** ** The country table of the home page *)

Section HomeCountries.
Context {num : Type} `{!Number num}.

Local Abbreviation is_zero :=
  (λ r : gmap string (cell num),
     cell_eqb (row_at r "number") (Num (num_of_Z 0))).

Lemma sort_values_desc_Some (df sorted : DataFrame num) (label : string) :
  sort_values_desc df label = Some sorted →
  label ∈ columns df
  ∧ sorted = {| columns := columns df;
                records := foldr (insert_desc label) [] (records df) |}.
Proof. unfold sort_values_desc. case_decide; naive_solver. Qed.

Lemma home_countries_Some (csv df_countries : DataFrame num)
    (countries_not_watched : list (cell num)) :
  home_countries csv = Some (countries_not_watched, df_countries) →
  ∃ sorted,
    sort_values_desc csv "number" = Some sorted
    ∧ "country" ∈ columns csv
    ∧ countries_not_watched
      = (λ r, row_at r "country")
        <$> filter (λ r, is_zero r = true) (records sorted)
    ∧ df_countries
      = {| columns := columns csv;
           records := filter (λ r, ¬ is_zero r = true) (records sorted) |}.
Proof.
  unfold home_countries. intros Hhome.
  destruct (sort_values_desc csv "number") as [sorted|] eqn:Hsort; [|done].
  exists sorted. split; [done|].
  apply sort_values_desc_Some in Hsort as [Hnumber Hsorted].
  assert (columns sorted = columns csv) as Hcols by by rewrite Hsorted.
  simpl in Hhome. unfold col at 1 in Hhome.
  rewrite Hcols, decide_True in Hhome by done. simpl in Hhome.
  unfold tolist, col in Hhome. simpl in Hhome. rewrite Hcols in Hhome.
  destruct (decide ("country" ∈ columns csv)); [|done].
  simpl in Hhome. injection Hhome as <- <-.
  split; [done|].
  rewrite <- !list_fmap_compose.
  change ((λ c, cell_eqb c (Num (num_of_Z 0))) ∘ (λ r, row_at r "number"))
    with is_zero.
  change ((λ c, cell_neb c (Num (num_of_Z 0))) ∘ (λ r, row_at r "number"))
    with (negb ∘ is_zero).
  rewrite (boolean_index_fmap is_zero).
  split; [done|]. unfold select. rewrite Hcols. f_equal.
  rewrite list_fmap_compose. apply boolean_index_fmap_negb.
Qed.

(** X10: for a country file whose numbers are numeric, the country
    table is prepared exactly when the file has the columns "number" and
    "country"; the table kept for the charts then has the columns of the
    file. *)
Theorem home_countries_defined (csv : DataFrame num) :
  Forall (λ r, numeric (row_at r "number") = true) (records csv) →
  (is_Some (home_countries csv)
   ↔ "number" ∈ columns csv ∧ "country" ∈ columns csv)
  ∧ ∀ countries_not_watched df_countries,
      home_countries csv = Some (countries_not_watched, df_countries) →
      columns df_countries = columns csv.
Proof.
  intros _. split.
  - split.
    + intros [[nw df] (sorted & Hsort & Hcountry & _)%home_countries_Some].
      by apply sort_values_desc_Some in Hsort as [? _].
    + intros [Hnumber Hcountry]. unfold home_countries, sort_values_desc.
      rewrite decide_True by done. simpl.
      unfold col at 1. simpl. rewrite decide_True by done. simpl.
      unfold tolist, col. simpl. rewrite decide_True by done. by eexists.
  - by intros nw df (sorted & _ & _ & _ & ->)%home_countries_Some.
Qed.

(** X9: handed the two results of the country preparation, the country
    pie is always built, and its two slices, the countries kept and the
    countries not watched, add up to the number of rows of the file. *)
Theorem countries_pie_total (csv df_countries : DataFrame num)
    (countries_not_watched : list (cell num)) :
  home_countries csv = Some (countries_not_watched, df_countries) →
  ∃ fig,
    create_progression_countries df_countries countries_not_watched
    = Some fig
    ∧ pie_names fig = ["Watched"; "Not watched"]
    ∧ pie_values fig = [len df_countries; length countries_not_watched]
    ∧ len df_countries + length countries_not_watched = len csv.
Proof.
  intros (sorted & Hsort & Hcountry & -> & ->)%home_countries_Some.
  apply sort_values_desc_perm in Hsort as [_ Hperm].
  unfold create_progression_countries, tolist, col. simpl.
  rewrite decide_True by done. simpl.
  eexists. split; [done|]. simpl.
  rewrite !length_fmap. split; [done|]. split; [done|].
  unfold len. simpl. rewrite (Nat.add_comm _ (length (filter _ _))).
  rewrite <- length_app, filter_app_complement. by apply Permutation_length.
Qed.
End HomeCountries.

Lemma home_countries_defined_witness :
  is_Some (home_countries some_countries).
Proof.
  apply (home_countries_defined some_countries).
  - by repeat constructor.
  - split; simpl; [apply elem_of_cons; right|]; by left.
Defined.

Lemma countries_pie_total_witness :
  ∃ countries_not_watched df_countries fig,
    home_countries some_countries
    = Some (countries_not_watched, df_countries)
    ∧ create_progression_countries df_countries countries_not_watched
      = Some fig
    ∧ pie_values fig = [2; 2].
Proof.
  destruct (home_countries some_countries) as [[nw df]|] eqn:Hhome;
    [|vm_compute in Hhome; discriminate Hhome].
  destruct (countries_pie_total _ _ _ Hhome) as (fig & Hfig & _ & Hvalues & _).
  exists nw, df, fig. repeat split; [exact Hfig|].
  rewrite Hvalues. vm_compute in Hhome. by injection Hhome as <- <-.
Defined.

(** ** Descending order *)

Section Descending.
Implicit Types r : gmap string (cell Z).

(** [r] may stand before [r']: if [r'] holds a number under [label],
    then [r] holds a number that is not smaller.  Rows with a missing
    value may only be followed by rows with a missing value. *)
Local Abbreviation may_precede label :=
  (λ r r', ∀ b : Z, row_at r' label = Num b →
             ∃ a : Z, row_at r label = Num a ∧ (b ≤ a)%Z).

Lemma may_precede_trans (label : string) r1 r2 r3 :
  may_precede label r1 r2 → may_precede label r2 r3 →
  may_precede label r1 r3.
Proof.
  intros H12 H23 c Hc.
  destruct (H23 c Hc) as (b & Hb & Hcb).
  destruct (H12 b Hb) as (a & Ha & Hba).
  exists a. split; [done|lia].
Qed.

Lemma desc_before_true (label : string) r r' :
  numeric (row_at r label) = true → numeric (row_at r' label) = true →
  desc_before label r r' = true → may_precede label r r'.
Proof.
  unfold desc_before. intros Hr Hr' Hbefore b Hb. rewrite Hb in Hbefore.
  destruct (row_at r label) as [|a|]; try done.
  simpl in Hbefore. apply Z.ltb_lt in Hbefore.
  exists a. split; [done|lia].
Qed.

Lemma desc_before_false (label : string) r r' :
  numeric (row_at r label) = true → numeric (row_at r' label) = true →
  desc_before label r' r = false → may_precede label r r'.
Proof.
  unfold desc_before. intros Hr Hr' Hbefore b Hb. rewrite Hb in Hbefore.
  destruct (row_at r label) as [|a|]; try done.
  simpl in Hbefore. apply Z.ltb_ge in Hbefore.
  exists a. split; [done|lia].
Qed.

Lemma insert_desc_sorted (label : string) r (sorted : list (gmap string (cell Z))) :
  numeric (row_at r label) = true →
  Forall (λ r', numeric (row_at r' label) = true) sorted →
  StronglySorted (may_precede label) sorted →
  StronglySorted (may_precede label) (insert_desc label r sorted).
Proof.
  intros Hr. induction sorted as [|r' sorted IH]; simpl.
  - intros _ _. by repeat constructor.
  - intros [Hr' Hnum]%Forall_cons [Hsorted Hall]%StronglySorted_inv.
    destruct (desc_before label r' r) eqn:Hbefore.
    + constructor; [by apply IH|].
      apply Forall_forall. intros x Hx.
      rewrite insert_desc_perm in Hx.
      apply elem_of_cons in Hx as [->|Hx].
      * by apply desc_before_true.
      * rewrite Forall_forall in Hall. by apply Hall.
    + assert (may_precede label r r') as Hrr'
        by by apply desc_before_false.
      constructor; [by constructor|].
      constructor; [done|].
      rewrite Forall_forall in Hall. apply Forall_forall. intros x Hx.
      eapply may_precede_trans; [exact Hrr' | by apply Hall].
Qed.

Lemma StronglySorted_filter {A} (R : relation A) (P : A → Prop)
    `{!∀ x, Decision (P x)} (l : list A) :
  StronglySorted R l → StronglySorted R (filter P l).
Proof.
  induction 1 as [|x l Hsorted IH Hall]; [constructor|].
  rewrite filter_cons. case_decide; [|done].
  constructor; [done|].
  rewrite Forall_forall in Hall. apply Forall_forall.
  intros y [_ Hy]%list_elem_of_filter. by apply Hall.
Qed.

Lemma foldr_insert_desc_perm (label : string)
    (rows : list (gmap string (cell Z))) :
  foldr (insert_desc label) [] rows ≡ₚ rows.
Proof.
  induction rows as [|r rows IH]; [done|].
  simpl. by rewrite insert_desc_perm, IH.
Qed.

Lemma foldr_insert_desc_sorted (label : string)
    (rows : list (gmap string (cell Z))) :
  Forall (λ r, numeric (row_at r label) = true) rows →
  StronglySorted (may_precede label) (foldr (insert_desc label) [] rows).
Proof.
  induction 1 as [|r rows Hr Hrows IH]; [constructor|].
  simpl. apply insert_desc_sorted; [done| |done].
  by rewrite foldr_insert_desc_perm.
Qed.

(** X11: sorting a table of integers by a numeric column, largest
    first, keeps the columns and the rows and puts them in descending
    order, rows with a missing value last. *)
Theorem sort_values_desc_sorted (df sorted : DataFrame Z) (label : string) :
  Forall (λ r, numeric (row_at r label) = true) (records df) →
  sort_values_desc df label = Some sorted →
  columns sorted = columns df
  ∧ records sorted ≡ₚ records df
  ∧ StronglySorted (may_precede label) (records sorted).
Proof.
  intros Hnum Hsort.
  apply sort_values_desc_Some in Hsort as [_ ->]. simpl.
  split; [done|]. split; [apply foldr_insert_desc_perm|].
  by apply foldr_insert_desc_sorted.
Qed.

(** X12: when the numbers of the country file are integers, the table
    kept for the charts lists the countries by descending number and
    holds no country with number 0. *)
Theorem home_countries_descending (csv df_countries : DataFrame Z)
    (countries_not_watched : list (cell Z)) :
  Forall (λ r, numeric (row_at r "number") = true) (records csv) →
  home_countries csv = Some (countries_not_watched, df_countries) →
  StronglySorted (may_precede "number") (records df_countries)
  ∧ Forall (λ r, row_at r "number" ≠ Num 0%Z) (records df_countries).
Proof.
  intros Hnum (sorted & Hsort & _ & _ & ->)%home_countries_Some. simpl.
  apply sort_values_desc_Some in Hsort as [_ ->]. simpl.
  split.
  - by apply StronglySorted_filter, foldr_insert_desc_sorted.
  - apply Forall_forall. intros r [Hr _]%list_elem_of_filter Hzero.
    apply Hr. by rewrite Hzero.
Qed.
End Descending.

Lemma sort_values_desc_sorted_witness :
  ∃ sorted,
    sort_values_desc some_persons "number" = Some sorted
    ∧ records sorted ≡ₚ records some_persons.
Proof.
  destruct (sort_values_desc some_persons "number") as [sorted|] eqn:Hsort;
    [|vm_compute in Hsort; discriminate Hsort].
  exists sorted. split; [reflexivity|].
  apply (sort_values_desc_sorted some_persons sorted "number");
    [by repeat constructor | exact Hsort].
Defined.

Lemma home_countries_descending_witness :
  ∃ countries_not_watched df_countries,
    home_countries some_countries
    = Some (countries_not_watched, df_countries)
    ∧ Forall (λ r, row_at r "number" ≠ Num 0%Z) (records df_countries).
Proof.
  destruct (home_countries some_countries) as [[nw df]|] eqn:Hhome;
    [|vm_compute in Hhome; discriminate Hhome].
  exists nw, df. split; [reflexivity|].
  apply (home_countries_descending some_countries df nw);
    [by repeat constructor | exact Hhome].
Defined.

(** ** Groups without any assumption on the keys *)

Section GroupSizesElems.
Context {K : Type} (eqb ltb : K → K → bool).

Lemma count_key_Forall (P : K * nat → Prop) (k : K)
    (groups : list (K * nat)) :
  P (k, 1%nat) → (∀ k' n, P (k', n) → P (k', S n)) →
  Forall P groups → Forall P (count_key eqb ltb k groups).
Proof.
  intros Hnew Hgrow. induction 1 as [|[k' n] groups Hg Hgroups IH]; simpl.
  - by repeat constructor.
  - destruct (eqb k k'); [|destruct (ltb k k')].
    + constructor; [by apply Hgrow | done].
    + by repeat constructor.
    + by constructor.
Qed.

(** Every group is the group of a key that occurs, and no group is
    empty. *)
Lemma group_sizes_elems (keys : list K) :
  Forall (λ g, g.1 ∈ keys ∧ 0 < g.2) (group_sizes eqb ltb keys).
Proof.
  unfold group_sizes.
  assert (∀ ks groups,
            Forall (λ k, k ∈ keys) ks →
            Forall (λ g : K * nat, g.1 ∈ keys ∧ 0 < g.2) groups →
            Forall (λ g : K * nat, g.1 ∈ keys ∧ 0 < g.2)
              (foldl (λ groups k, count_key eqb ltb k groups) groups ks))
    as Hfold.
  { induction ks as [|k ks IH]; intros groups Hks Hgroups; [done|].
    apply Forall_cons in Hks as [Hk Hks]. simpl. apply IH; [done|].
    apply count_key_Forall; [split; [done|simpl; lia]| |done].
    intros k' n [? ?]. split; [done|simpl; lia]. }
  apply Hfold; [|constructor]. by apply Forall_forall.
Qed.
End GroupSizesElems.

Section MoreCharts.
Context {num : Type} `{!Number num}.

(** X13: on a films table whose ratings are numeric, the rating scatter
    is built exactly when the table has the columns "press rating" and
    "spectator rating".  Its three series are aligned, every point
    stands for at least one film and for a pair of ratings that are both
    present, and the points stand for no more films than the table
    has. *)
Theorem scatter_points (df_films : DataFrame num) :
  Forall (λ r, numeric (row_at r "press rating") = true
               ∧ numeric (row_at r "spectator rating") = true)
         (records df_films) →
  (is_Some (create_scatter_ratings df_films)
   ↔ "press rating" ∈ columns df_films
     ∧ "spectator rating" ∈ columns df_films)
  ∧ ∀ fig, create_scatter_ratings df_films = Some fig →
      length (sc_x fig) = length (sc_size fig)
      ∧ length (sc_y fig) = length (sc_size fig)
      ∧ Forall (λ n, 0 < n) (sc_size fig)
      ∧ Forall (λ c, notna c = true) (sc_x fig)
      ∧ Forall (λ c, notna c = true) (sc_y fig)
      ∧ sum_list (sc_size fig) ≤ len df_films.
Proof.
  intros _. unfold create_scatter_ratings, groupby2_size, col.
  rewrite decide_False by by intros [?|?]. split.
  - destruct (decide ("press rating" ∈ columns df_films));
      [|split; [by intros [? ?] | by intros [? ?]]].
    destruct (decide ("spectator rating" ∈ columns df_films));
      [|split; [by intros [? ?] | by intros [? ?]]].
    split; [done|]. intros _. by eexists.
  - intros fig.
    destruct (decide ("press rating" ∈ columns df_films)); [|done].
    destruct (decide ("spectator rating" ∈ columns df_films)); [|done].
    simpl. intros [= <-]. simpl.
    set (keys := filter (λ k, pair_notna k = true) _).
    pose proof (group_sizes_elems pair_eqb pair_ltb keys) as Helems.
    rewrite !length_fmap. split; [done|]. split; [done|].
    rewrite Forall_forall in Helems.
    assert (∀ g, g ∈ group_sizes pair_eqb pair_ltb keys →
              notna g.1.1 = true ∧ notna g.1.2 = true) as Hna.
    { intros g [[Hpair _]%list_elem_of_filter _]%Helems.
      by apply andb_true_iff in Hpair. }
    split; [|split; [|split]].
    + apply Forall_fmap, Forall_forall. intros g Hg. by apply Helems.
    + apply Forall_fmap, Forall_forall. intros g Hg. by apply Hna.
    + apply Forall_fmap, Forall_forall. intros g Hg. by apply Hna.
    + rewrite group_sizes_sum. unfold keys, len.
      etransitivity; [apply length_filter|].
      rewrite length_zip, !length_fmap. lia.
Qed.

(** X8: the award pie is built exactly when the award list has the
    columns "id" and "title" and the films table has the column "id";
    it then carries the title it was given and names its two slices
    "Watched" and "Not watched". *)
Theorem create_progression_defined (df_award df_films : DataFrame num)
    (title : string) :
  (is_Some (create_progression df_award title df_films)
   ↔ "id" ∈ columns df_award ∧ "title" ∈ columns df_award
     ∧ "id" ∈ columns df_films)
  ∧ ∀ fig, create_progression df_award title df_films = Some fig →
      pie_title fig = title
      ∧ pie_names fig = ["Watched"; "Not watched"].
Proof.
  unfold create_progression, award_split, tolist, select, col. simpl. split.
  - destruct (decide ("id" ∈ columns df_award));
      [|split; [by intros [? ?] | by intros (? & ? & ?)]].
    destruct (decide ("id" ∈ columns df_films));
      [|split; [by intros [? ?] | by intros (? & ? & ?)]].
    simpl.
    destruct (decide ("title" ∈ columns df_award));
      [|split; [by intros [? ?] | by intros (? & ? & ?)]].
    split; [done|]. intros _. by eexists.
  - intros fig.
    destruct (decide ("id" ∈ columns df_award)); [|done].
    destruct (decide ("id" ∈ columns df_films)); [|done]. simpl.
    destruct (decide ("title" ∈ columns df_award)); [|done]. simpl.
    by intros [= <-].
Qed.

(** X14: the table of the films without press rating keeps the columns
    and holds exactly the rows whose press rating is missing; grouped by
    spectator rating, its group sizes add up to the number of films
    that lack a press rating and have a spectator rating. *)
Theorem without_press_rating_groups (df_films df : DataFrame num) :
  without_press_rating df_films = Some df →
  columns df = columns df_films
  ∧ records df
    = filter (λ r, isna (row_at r "press rating") = true) (records df_films)
  ∧ ∀ df_count,
      groupby_size df "spectator rating" = Some df_count →
      sum_list df_count.*2
      = length (filter (λ r, isna (row_at r "press rating") = true
                             ∧ notna (row_at r "spectator rating") = true)
                  (records df_films)).
Proof.
  unfold without_press_rating.
  destruct (col df_films "press rating") as [press|] eqn:Hpress; [|done].
  apply col_Some in Hpress as [_ ->]. simpl. intros [= <-].
  assert (records (select df_films
                     (isna <$> ((λ r, row_at r "press rating")
                                <$> records df_films)))
          = filter (λ r, isna (row_at r "press rating") = true)
              (records df_films)) as Hrows.
  { simpl. rewrite <- list_fmap_compose.
    apply (boolean_index_fmap (isna ∘ (λ r, row_at r "press rating"))). }
  split; [done|]. split; [done|].
  intros df_count (keys & Hkeys & -> & _)%groupby_size_Some.
  apply col_Some in Hkeys as [_ ->].
  rewrite group_sizes_sum, Hrows, filter_fmap, length_fmap.
  rewrite list_filter_filter. f_equal. apply list_filter_iff. tauto.
Qed.
End MoreCharts.

Lemma scatter_points_witness :
  ∃ fig, create_scatter_ratings three_films = Some fig
         ∧ sum_list (sc_size fig) ≤ len three_films.
Proof.
  destruct (create_scatter_ratings three_films) as [fig|] eqn:Hfig;
    [|vm_compute in Hfig; discriminate Hfig].
  exists fig. split; [reflexivity|].
  destruct (scatter_points three_films) as [_ Hpoints];
    [by repeat constructor|].
  by destruct (Hpoints fig Hfig) as (_ & _ & _ & _ & _ & Hsum).
Defined.

Lemma create_progression_defined_witness :
  ∃ fig, create_progression some_awards "Watched Oscars" three_films
         = Some fig
         ∧ pie_title fig = "Watched Oscars".
Proof.
  destruct (create_progression some_awards "Watched Oscars" three_films)
    as [fig|] eqn:Hfig; [|vm_compute in Hfig; discriminate Hfig].
  exists fig. split; [reflexivity|].
  by destruct (create_progression_defined some_awards three_films
                 "Watched Oscars") as [_ Hfigs];
    destruct (Hfigs fig Hfig) as [Htitle _].
Defined.

Lemma without_press_rating_groups_witness :
  ∃ df, without_press_rating three_films = Some df ∧ len df = 1.
Proof.
  destruct (without_press_rating three_films) as [df|] eqn:Hdf;
    [|vm_compute in Hdf; discriminate Hdf].
  exists df. split; [reflexivity|].
  destruct (without_press_rating_groups three_films df Hdf) as (_ & Hrows & _).
  unfold len. by rewrite Hrows.
Defined.

(** ** The widgets of the person grid *)

Section PersonWidgets.
Context {num : Type} `{!Number num} {Person : Type}.
Context (Person_new : cell num → Person).
Context (get_name get_image : Person → string).

Implicit Types s : App num Person.
Local Abbreviation St := (@St num Person).

Lemma shows_weaken {A} (n n' : nat) (m : St A) :
  n ≤ n' → shows n m → shows n' m.
Proof. intros Hle Hm s. destruct (Hm s). split; [done|lia]. Qed.

Lemma shows_bind {A B} (a b : nat) (m : St A) (k : A → St B) :
  shows a m → (∀ x, shows b (k x)) → shows (a + b) (bind m k).
Proof.
  intros Hm Hk s. unfold bind. destruct (Hm s) as [Hpre Hlen].
  destruct (m s) as [[x|target|] s1]; simpl in *; [|split; [done|lia]..].
  destruct (Hk x s1) as [Hpre' Hlen'].
  split; [by etransitivity|lia].
Qed.

Lemma shows_quiet {A} (m : St A) :
  (∀ s, page (m s).2 = page s) → shows 0 m.
Proof. intros Hm s. rewrite Hm. split; [done|lia]. Qed.

Lemma shows_emit (w : widget) :
  shows (if is_button w then 1 else 0) (emit w : St unit).
Proof.
  intros s. simpl. split; [by apply prefix_app_r|].
  unfold buttons. rewrite filter_app, length_app, filter_cons, filter_nil.
  destruct (is_button w); case_decide; simpl; done || lia.
Qed.

Lemma shows_button (label : string) :
  shows 1 (st_button label : St bool).
Proof.
  apply (shows_bind 1 0); [apply (shows_emit (Button label))|].
  intros _. by apply shows_quiet.
Qed.

Lemma shows_for {A} (b : nat) (l : list A) (body : A → St unit) :
  (∀ x, shows b (body x)) → shows (length l * b) (for_ l body).
Proof.
  intros Hbody. induction l as [|x l IH]; simpl.
  - by apply shows_quiet.
  - apply (shows_bind b (length l * b)); [apply Hbody | by intros _].
Qed.

Lemma shows_person_slot (people : DataFrame num) (idx : nat) :
  shows 1 (person_slot Person_new get_name get_image people idx).
Proof.
  unfold person_slot.
  apply (shows_bind 0 1); [apply shows_quiet; intros s; by destruct (iloc _ _ _)|].
  intros id.
  apply (shows_bind 0 1); [by apply shows_quiet|]. intros cached.
  apply (shows_bind 0 1).
  { destruct (negb cached); by apply shows_quiet. }
  intros _.
  apply (shows_bind 0 1).
  { apply shows_quiet. intros s. unfold session_get.
    by destruct (session_state s !! _). }
  intros cache_entry.
  apply (shows_bind 0 1); [apply shows_quiet; by destruct cache_entry|].
  intros person.
  apply (shows_bind 0 1); [apply (shows_emit (Columns 3))|]. intros _.
  apply (shows_bind 1 0); [apply shows_button|]. intros button.
  apply (shows_bind 0 0); [apply (shows_emit (Markdown _))|]. intros _.
  apply (shows_bind 0 0);
    [apply shows_quiet; intros s; by destruct (iloc _ _ _)|].
  intros number.
  apply (shows_bind 0 0); [apply (shows_emit (Markdown _))|]. intros _.
  destruct button; by apply shows_quiet.
Qed.

Lemma range0_length (n step : nat) :
  length (Py.range0 n step) = (n + step - 1) / step.
Proof. unfold Py.range0. by rewrite length_fmap, length_seq. Qed.

(** X15: a render of the person grid removes nothing from the page and
    adds at most nine buttons to it, however many persons the table
    lists. *)
Theorem person_grid_at_most_nine (df_persons : DataFrame num) s :
  page s
    `prefix_of` page (create_persons Person_new get_name get_image
                        df_persons s).2
  ∧ length (buttons (page (create_persons Person_new get_name get_image
                             df_persons s).2))
    ≤ length (buttons (page s)) + 9.
Proof.
  revert s. unfold create_persons.
  set (people := head 9 df_persons).
  apply (shows_weaken (A := ()) (length (Py.range0 (len people) 3) * 3)).
  - rewrite range0_length.
    assert (len people ≤ 9) as Hlen
      by (unfold people, len; simpl; rewrite length_take; apply Nat.le_min_l).
    generalize dependent (len people). intros n Hn.
    assert ((n + 3 - 1) / 3 < 4); [|lia].
    apply Nat.Div0.div_lt_upper_bound. lia.
  - apply shows_for. intros i.
    apply (shows_bind 0 3); [apply (shows_emit (Columns 3))|]. intros _.
    apply (shows_for 1 (seq 0 3)). intros j.
    destruct (_ <? _)%nat; [apply shows_person_slot|].
    apply (shows_weaken 0); [lia|]. by apply shows_quiet.
Qed.
End PersonWidgets.

(** ** Leaving the page *)

Section PersonClicks.
Context {num : Type} `{!Number num} {Person : Type}.
Context (Person_new : cell num → Person).
Context (get_name get_image : Person → string).
Context (clicks : gset string).

Implicit Types s : App num Person.
Local Abbreviation St := (@St num Person).
Local Abbreviation leaves := (leaves_on_click get_name clicks).

Lemma leaves_bind {A B} (m : St A) (k : A → St B) :
  leaves m → (∀ x, leaves (k x)) → leaves (bind m k).
Proof.
  intros Hm Hk s Hs. unfold bind. destruct (Hm s Hs) as [Hclicks Hswitch].
  destruct (m s) as [[x|target|] s1]; simpl in *.
  - by apply Hk.
  - split; [done|]. intros t [= <-]. by apply Hswitch.
  - by split.
Qed.

(** A step that does not touch the clicks and does not leave. *)
Lemma leaves_stays {A} (m : St A) :
  (∀ s, clicked (m s).2 = clicked s ∧ ∀ target, (m s).1 ≠ Switch target) →
  leaves m.
Proof.
  intros Hm s Hs. destruct (Hm s) as [-> Hstay].
  split; [done|]. intros target Htarget. by destruct (Hstay target).
Qed.

(** What follows a button may rely on its answer. *)
Lemma leaves_button {B} (label : string) (k : bool → St B) :
  (∀ b, (b = true → label ∈ clicks) → leaves (k b)) →
  leaves (bind (st_button label) k).
Proof.
  intros Hk s Hs. unfold bind, st_button, bind, emit. simpl.
  apply Hk; [|done]. rewrite Hs. by intros ?%bool_decide_eq_true.
Qed.

Lemma leaves_selected (person : Person) (button : bool) :
  (button = true → get_name person ∈ clicks) →
  leaves (if button
          then bind (session_set "person" (ObjPerson person))
                    (λ _, st_switch_page "actor_page.py")
          else ret () : St unit).
Proof.
  intros Hbutton s Hs. destruct button; simpl; [|by split].
  split; [done|]. intros target [= <-]. split; [done|].
  exists person. split; [apply lookup_insert_eq | by apply Hbutton].
Qed.

Lemma leaves_person_slot (people : DataFrame num) (idx : nat) :
  leaves (person_slot Person_new get_name get_image people idx).
Proof.
  unfold person_slot.
  apply leaves_bind;
    [apply leaves_stays; intros s; by destruct (iloc _ _ _)|].
  intros id.
  apply leaves_bind; [by apply leaves_stays|]. intros cached.
  apply leaves_bind.
  { destruct (negb cached); by apply leaves_stays. }
  intros _.
  apply leaves_bind.
  { apply leaves_stays. intros s. unfold session_get.
    by destruct (session_state s !! _). }
  intros cache_entry.
  apply leaves_bind; [apply leaves_stays; by destruct cache_entry|].
  intros person.
  apply leaves_bind; [by apply leaves_stays|]. intros _.
  apply leaves_button. intros button Hbutton.
  apply leaves_bind; [by apply leaves_stays|]. intros _.
  apply leaves_bind;
    [apply leaves_stays; intros s; by destruct (iloc _ _ _)|].
  intros number.
  apply leaves_bind; [by apply leaves_stays|]. intros _.
  by apply leaves_selected.
Qed.

Lemma leaves_for {A} (l : list A) (body : A → St unit) :
  (∀ x, leaves (body x)) → leaves (for_ l body).
Proof.
  intros Hbody. induction l as [|x l IH]; simpl.
  - by apply leaves_stays.
  - apply leaves_bind; [apply Hbody | by intros _].
Qed.

Lemma leaves_create_persons (df_persons : DataFrame num) :
  leaves (create_persons Person_new get_name get_image df_persons).
Proof.
  unfold create_persons. apply leaves_for. intros i.
  apply leaves_bind; [by apply leaves_stays|]. intros _.
  apply leaves_for. intros j.
  destruct (_ <? _)%nat; [apply leaves_person_slot | by apply leaves_stays].
Qed.
End PersonClicks.

Section PersonNavigation.
Context {num : Type} `{!Number num} {Person : Type}.
Context (Person_new : cell num → Person).
Context (get_name get_image : Person → string).

(** X16: a render of the person grid leaves the page only for
    "actor_page.py", and only after storing under "person" a person whose
    button the visitor clicked; in a run without any click it never
    leaves the page. *)
Theorem person_grid_navigation (df_persons : DataFrame num)
    (s : App num Person) (target : string) :
  (create_persons Person_new get_name get_image df_persons s).1
  = Switch target →
  target = "actor_page.py"
  ∧ (∃ person,
       session_state
         (create_persons Person_new get_name get_image df_persons s).2
       !! "person" = Some (ObjPerson person)
       ∧ get_name person ∈ clicked s)
  ∧ clicked s ≠ ∅.
Proof.
  intros Hswitch.
  destruct (leaves_create_persons Person_new get_name get_image (clicked s)
              df_persons s eq_refl) as [_ Hleaves].
  destruct (Hleaves target Hswitch) as (-> & person & Hperson & Hclick).
  split; [done|]. split; [by exists person|].
  intros Hempty. rewrite Hempty in Hclick.
  by apply not_elem_of_empty in Hclick.
Qed.

Lemma range0_cons (n step : nat) :
  0 < n → 0 < step → ∃ rest, Py.range0 n step = 0 :: rest.
Proof.
  intros Hn Hstep. unfold Py.range0.
  assert (0 < (n + step - 1) / step) as Hdiv
    by (apply Nat.div_str_pos; lia).
  destruct ((n + step - 1) / step) as [|m]; [lia|].
  by eexists.
Qed.

(** X17: on a table without rows the person grid does nothing at all;
    on a table with rows but without the column "id" it stops with an
    exception at the first person, having opened the first row of
    columns and constructed and cached nothing. *)
Theorem person_grid_edges (df_persons : DataFrame num) (s : App num Person) :
  (records df_persons = [] →
   create_persons Person_new get_name get_image df_persons s = (Done (), s))
  ∧ (records df_persons ≠ [] → "id" ∉ columns df_persons →
     create_persons Person_new get_name get_image df_persons s
     = (Raise, {| session_state := session_state s;
                  page := page s ++ [Columns 3];
                  clicked := clicked s;
                  constructed := constructed s |})).
Proof.
  unfold create_persons, len, head, person_slot, iloc. simpl. split.
  - by intros ->.
  - intros Hrows Hid.
    destruct (records df_persons) as [|r rows]; [done|]. simpl.
    destruct (range0_cons (S (length (take 8 rows))) 3) as [rest ->];
      [lia..|].
    simpl. rewrite decide_False by done. reflexivity.
Qed.
End PersonNavigation.

(** A run in which the visitor clicked the button of the person 5. *)
Lemma person_grid_navigation_witness :
  ∃ person,
    session_state
      (create_persons (Person := string) cell_str id (λ _, "portrait.jpg")
         some_persons
         {| session_state := ∅; page := []; clicked := {[ "5" ]};
            constructed := [] |}).2
    !! "person" = Some (ObjPerson person)
    ∧ person ∈ ({[ "5" ]} : gset string).
Proof.
  destruct (person_grid_navigation (Person := string) cell_str id
              (λ _, "portrait.jpg") some_persons
              {| session_state := ∅; page := []; clicked := {[ "5" ]};
                 constructed := [] |} "actor_page.py")
    as (_ & Hperson & _); [by vm_compute | exact Hperson].
Defined.

(** The country table has rows and no column "id". *)
Lemma person_grid_edges_witness :
  (create_persons (Person := string) cell_str id (λ _, "portrait.jpg")
     some_countries (new_visit string)).1 = Raise.
Proof.
  destruct (person_grid_edges (Person := string) cell_str id
              (λ _, "portrait.jpg") some_countries (new_visit string))
    as [_ Hraise].
  rewrite Hraise; [reflexivity | done |].
  simpl. rewrite !elem_of_cons, elem_of_nil. by intros [?|[?|?]].
Defined.

(** ** The films column of a category *)

Section CategoriesColumn.
Context {num : Type} `{!Number num}.
Context (re_search : string → string → bool).

(** X18: the categorical histogram reads the films table under the
    plural of the category word: when the category table has rows and
    the films table has no column of that name, no figure is built. *)
Theorem hist_categories_needs_plural (df_categories df_films : DataFrame num)
    (categories id_ pl : string) :
  plural categories = Some pl →
  pl ∉ columns df_films →
  records df_categories ≠ [] →
  create_hist_categories re_search df_categories categories df_films id_
  = None.
Proof.
  intros Hpl Hcol Hrows. unfold create_hist_categories. rewrite Hpl. simpl.
  destruct (records df_categories) as [|row rows]; [done|].
  assert (hist_categories_hover re_search categories pl id_ df_categories
            df_films row = None) as Hhover.
  { unfold hist_categories_hover, hist_categories_examples, col.
    rewrite (decide_False (P := pl ∈ columns df_films)) by done.
    by case_decide. }
  simpl. by rewrite Hhover.
Qed.
End CategoriesColumn.

Lemma hist_categories_needs_plural_witness :
  create_hist_categories Py.contains countries_csv "country" three_films
    "country" = None.
Proof.
  apply (hist_categories_needs_plural Py.contains countries_csv three_films
           "country" "country" "countries"); [reflexivity| |done].
  cbv [columns three_films film_columns].
  rewrite !elem_of_cons, elem_of_nil.
  by intros [?|[?|[?|[?|[?|?]]]]].
Defined.

(** ** What a visit keeps in the session state *)

Section VisitKeeps.
Context {num : Type} `{!Number num} {Person : Type}.
Context (Person_new : cell num → Person).
Context (get_name get_image : Person → string).

(** X19: over all the renders of a visit, the person grid changes or
    removes no entry of the session state other than the selection slot
    "person"; in particular the films table stored under "df_films"
    stays as it is. *)
Theorem visit_keeps_entries (s : App num Person)
    (runs : list (DataFrame num * gset string)) (key : string)
    (v : obj num Person) :
  key ≠ "person" →
  session_state s !! key = Some v →
  session_state (visit Person_new get_name get_image s runs) !! key = Some v.
Proof.
  intros Hkey. unfold visit. revert s.
  induction runs as [|run runs IH]; intros s Hv; simpl; [done|].
  apply IH. unfold render.
  by apply (ok_create_persons Person_new get_name get_image run.1).
Qed.
End VisitKeeps.

Lemma visit_keeps_entries_witness :
  session_state
    (visit (Person := string) cell_str id (λ _, "portrait.jpg")
       {| session_state := {[ "df_films" := ObjFrame three_films ]};
          page := []; clicked := ∅; constructed := [] |}
       [(some_persons, ∅); (some_persons, {[ "5" ]})])
  !! "df_films" = Some (ObjFrame three_films).
Proof.
  apply visit_keeps_entries; [done|]. apply lookup_singleton_eq.
Defined.
